(** * The finite-state controller of [src/fsm.cpp] and [src/fsm.hpp]

    A shallow embedding of class [FSM]: the enumeration [SystemState], the
    object's six fields, the console and the clock it talks to, and every
    member function, written in a small state monad so that each definition
    reads like the C++ body it stands for.  The theorems below settle the
    properties claimed about the engine. *)

From Stdlib Require Import ZArith String List Lia Bool Sorted.
Import ListNotations.
Local Open Scope Z_scope.

(* ===================================================================== *)
(** ** Machine integers *)
(* ===================================================================== *)

(** [uint32_t] values are kept as [Z] in [0, 2^32); a conversion to
    [uint32_t] reduces modulo [2^32]. *)
Definition UINT32_MODULUS : Z := 4294967296.
Definition to_uint32 (z : Z) : Z := z mod UINT32_MODULUS.

(** [int] is 32 bits wide.  [x++] on [INT_MAX] is undefined in C++; the
    model takes the two's-complement wrap-around that the hardware gives.
    Theorems that speak of "plus one" carry the side condition that the
    counter is below [INT_MAX], so they do not depend on that choice. *)
Definition INT_MAX : Z := 2147483647.
Definition INT_MIN : Z := -2147483648.
Definition to_int (z : Z) : Z := (z + 2147483648) mod UINT32_MODULUS - 2147483648.
Definition int_incr (x : Z) : Z := to_int (x + 1).

(* ===================================================================== *)
(** ** Data model ([fsm.hpp]) *)
(* ===================================================================== *)

(** [enum class SystemState] *)
Inductive SystemState : Set :=
| INIT | IDLE | MOVEMENT | SHOOTING | CALCULATION | ERROR | STOPPED.

(** [static_cast<int>(state)]: enumerators count from 0 in declaration
    order. *)
Definition state_to_int (s : SystemState) : Z :=
  match s with
  | INIT => 0 | IDLE => 1 | MOVEMENT => 2 | SHOOTING => 3
  | CALCULATION => 4 | ERROR => 5 | STOPPED => 6
  end.

Definition SystemState_eqb (a b : SystemState) : bool :=
  state_to_int a =? state_to_int b.

(** The private fields of [class FSM], in declaration order. *)
Record FSM : Type := mkFSM {
  currentState  : SystemState;
  lastHeartbeat : Z;                          (* uint32_t *)
  delay         : Z;                          (* uint32_t *)
  errorCount    : Z;                          (* int *)
  stateHistory  : list (SystemState * Z);     (* vector<pair<SystemState,uint32_t>> *)
  moveCount     : Z                           (* int *)
}.

Definition with_currentState (v : SystemState) (s : FSM) : FSM :=
  mkFSM v (lastHeartbeat s) (delay s) (errorCount s) (stateHistory s) (moveCount s).
Definition with_lastHeartbeat (v : Z) (s : FSM) : FSM :=
  mkFSM (currentState s) v (delay s) (errorCount s) (stateHistory s) (moveCount s).
Definition with_delay (v : Z) (s : FSM) : FSM :=
  mkFSM (currentState s) (lastHeartbeat s) v (errorCount s) (stateHistory s) (moveCount s).
Definition with_errorCount (v : Z) (s : FSM) : FSM :=
  mkFSM (currentState s) (lastHeartbeat s) (delay s) v (stateHistory s) (moveCount s).
Definition with_stateHistory (v : list (SystemState * Z)) (s : FSM) : FSM :=
  mkFSM (currentState s) (lastHeartbeat s) (delay s) (errorCount s) v (moveCount s).
Definition with_moveCount (v : Z) (s : FSM) : FSM :=
  mkFSM (currentState s) (lastHeartbeat s) (delay s) (errorCount s) (stateHistory s) v.

(* ===================================================================== *)
(** ** The world outside the object *)
(* ===================================================================== *)

(** One insertion into [cout]: a string literal, an integer, or [endl]. *)
Inductive Out : Set :=
| OStr (s : string)
| OInt (z : Z)
| OEndl.

(** The environment of a run.  [steady_clock k] is the number of
    milliseconds since [start_time] that the [k]-th call of [millis] sees
    (a 64-bit count); [cin k] is the [int] that the [k]-th
    [cin >> cmd] stores in [cmd]; [cout] is everything written so far.
    A failed or exhausted input stream is outside the model: the Command
    Source hands over an integer each time it is asked. *)
Record Env : Type := mkEnv {
  steady_clock : nat -> Z;
  clock_reads  : nat;
  cin          : nat -> Z;
  cin_reads    : nat;
  cout         : list Out
}.

Definition World : Type := (FSM * Env)%type.

(* ===================================================================== *)
(** ** A state monad over the object and its environment *)
(* ===================================================================== *)

Definition M (A : Type) : Type := World -> A * World.

Definition ret {A} (a : A) : M A := fun w => (a, w).
Definition bind {A B} (m : M A) (k : A -> M B) : M B :=
  fun w => let (a, w') := m w in k a w'.

Declare Scope fsm_scope.
Delimit Scope fsm_scope with fsm.
Notation "x <- m ;; k" := (bind m (fun x => k))
  (at level 61, m at next level, right associativity) : fsm_scope.
Notation "m ;; k" := (bind m (fun _ => k))
  (at level 61, right associativity) : fsm_scope.
Local Open Scope fsm_scope.

(** Reading and updating [*this]. *)
Definition this : M FSM := fun w => (fst w, w).
Definition update_this (f : FSM -> FSM) : M unit :=
  fun w => (tt, (f (fst w), snd w)).

(** [cout << ...] *)
Definition put (o : Out) : M unit :=
  fun w =>
    let e := snd w in
    (tt, (fst w,
          mkEnv (steady_clock e) (clock_reads e) (cin e) (cin_reads e)
                (cout e ++ [o]))).

(** [int cmd; cin >> cmd;] *)
Definition cin_int : M Z :=
  fun w =>
    let e := snd w in
    (to_int (cin e (cin_reads e)),
     (fst w,
      mkEnv (steady_clock e) (clock_reads e) (cin e) (S (cin_reads e))
            (cout e))).

(** [uint32_t millis()] ([fsm.cpp], lines 9-12): the elapsed milliseconds,
    converted to [uint32_t] on return. *)
Definition millis : M Z :=
  fun w =>
    let e := snd w in
    (to_uint32 (steady_clock e (clock_reads e)),
     (fst w,
      mkEnv (steady_clock e) (S (clock_reads e)) (cin e) (cin_reads e)
            (cout e))).

(** What a computation leaves behind. *)
Definition run {A} (m : M A) (s : FSM) (e : Env) : World := snd (m (s, e)).
Definition fsm_after {A} (m : M A) (s : FSM) (e : Env) : FSM := fst (run m s e).
Definition env_after {A} (m : M A) (s : FSM) (e : Env) : Env := snd (run m s e).
Definition value_of {A} (m : M A) (s : FSM) (e : Env) : A := fst (m (s, e)).

(* ===================================================================== *)
(** ** Member functions ([fsm.cpp]) *)
(* ===================================================================== *)

(** [FSM::FSM()] and [FSM::FSM(uint32_t delay_ms)]: the history is cleared
    and seeded with [(currentState, lastHeartbeat)], that is [(INIT, 0)]. *)
Definition FSM_default : FSM :=
  mkFSM INIT 0 0 0 [(INIT, 0)] 0.
Definition FSM_with_delay (delay_ms : Z) : FSM :=
  mkFSM INIT 0 delay_ms 0 [(INIT, 0)] 0.

(** Either constructor: [None] is [FSM()], [Some d] is [FSM(d)]. *)
Definition construct (d : option Z) : FSM :=
  match d with
  | None => FSM_default
  | Some delay_ms => FSM_with_delay delay_ms
  end.

Definition getCurrentState : M SystemState :=
  s <- this ;; ret (currentState s).

(** [FSM::transitionToState] *)
Definition transitionToState (newState : SystemState) : M unit :=
  update_this (with_currentState newState) ;;
  now <- millis ;;
  update_this (with_lastHeartbeat now) ;;
  s <- this ;;
  update_this (with_stateHistory (stateHistory s ++ [(newState, lastHeartbeat s)])).

Definition setDelay (d : Z) : M unit := update_this (with_delay d).
Definition getDelay : M Z := s <- this ;; ret (delay s).
Definition setErrorCount (count : Z) : M unit := update_this (with_errorCount count).
Definition getErrorCount : M Z := s <- this ;; ret (errorCount s).
Definition setMoveCount (count : Z) : M unit := update_this (with_moveCount count).
Definition getMoveCount : M Z := s <- this ;; ret (moveCount s).

(** [FSM::addStateToHistory] *)
Definition addStateToHistory (state : SystemState) (time : Z) : M unit :=
  s <- this ;;
  update_this (with_stateHistory (stateHistory s ++ [(state, time)])).

Definition getStateHistory : M (list (SystemState * Z)) :=
  s <- this ;; ret (stateHistory s).
Definition getLastHeartbeat : M Z := s <- this ;; ret (lastHeartbeat s).
Definition setLastHeartbeat (heartbeat : Z) : M unit :=
  update_this (with_lastHeartbeat heartbeat).

(** [FSM::printStatus] *)
Definition printStatus : M unit :=
  s <- this ;;
  put (OStr "[Status] State=") ;;
  put (OInt (state_to_int (currentState s))) ;;
  put (OStr " MoveCount=") ;;
  put (OInt (moveCount s)) ;;
  put (OStr " Errors=") ;;
  put (OInt (errorCount s)) ;;
  put OEndl.

(** The body of the range-for in [FSM::printStateHistory]. *)
Fixpoint print_entries (h : list (SystemState * Z)) : M unit :=
  match h with
  | [] => ret tt
  | entry :: rest =>
      put (OStr " (") ;;
      put (OInt (state_to_int (fst entry))) ;;
      put (OStr ",") ;;
      put (OInt (snd entry)) ;;
      put (OStr ")") ;;
      print_entries rest
  end.

(** [FSM::printStateHistory] *)
Definition printStateHistory : M unit :=
  put (OStr "[History]") ;;
  s <- this ;;
  print_entries (stateHistory s) ;;
  put OEndl.

(** [FSM::performInit] *)
Definition performInit : M unit :=
  put (OStr "Initializing...") ;; put OEndl ;;
  transitionToState IDLE.

(** [FSM::performProcess] *)
Definition performProcess : M unit :=
  printStatus ;;
  put (OStr "Commands: 1=Status 2=Move 3=Shoot 4=Calc 5=Stop > ") ;;
  cmd <- cin_int ;;
  match cmd with
  | 1 => printStatus ;; printStateHistory
  | 2 => transitionToState MOVEMENT
  | 3 => transitionToState SHOOTING
  | 4 => transitionToState CALCULATION
  | 5 => transitionToState STOPPED
  | _ => put (OStr "Invalid") ;; put OEndl ;; transitionToState ERROR
  end.

(** [FSM::performMovement] *)
Definition performMovement : M unit :=
  put (OStr "Moving...") ;; put OEndl ;;
  update_this (fun s => with_moveCount (int_incr (moveCount s)) s) ;;
  s <- this ;;
  transitionToState (if 3 <=? moveCount s then SHOOTING else IDLE).

(** [FSM::performShooting] *)
Definition performShooting : M unit :=
  put (OStr "Shooting...") ;; put OEndl ;;
  update_this (with_moveCount 0) ;;
  transitionToState IDLE.

(** [FSM::performCalculation] *)
Definition performCalculation : M unit :=
  put (OStr "Calculating...") ;; put OEndl ;;
  s <- this ;;
  if moveCount s =? 0 then transitionToState ERROR
  else transitionToState IDLE.

(** [FSM::performErrorHandling] *)
Definition performErrorHandling : M unit :=
  put (OStr "Error!") ;; put OEndl ;;
  update_this (fun s => with_errorCount (int_incr (errorCount s)) s) ;;
  s <- this ;;
  transitionToState (if 3 <? errorCount s then STOPPED else IDLE).

(** [FSM::shutdown] *)
Definition shutdown : M unit :=
  put (OStr "Shutting down...") ;; put OEndl ;;
  printStateHistory.

(** [FSM::update] *)
Definition update : M unit :=
  s <- this ;;
  match currentState s with
  | INIT => performInit
  | IDLE => performProcess
  | MOVEMENT => performMovement
  | SHOOTING => performShooting
  | CALCULATION => performCalculation
  | ERROR => performErrorHandling
  | STOPPED => shutdown
  end.

(** The [while (currentState != STOPPED) update();] of [FSM::start], cut
    off after [fuel] iterations.  The value tells whether the loop was left
    through its condition ([true]) or cut off ([false]). *)
Fixpoint start_loop (fuel : nat) : M bool :=
  s <- this ;;
  if SystemState_eqb (currentState s) STOPPED then ret true
  else match fuel with
       | O => ret false
       | S fuel' => update ;; start_loop fuel'
       end.

(** [FSM::start], with the loop bounded by [fuel]. *)
Definition start (fuel : nat) : M bool :=
  performInit ;;
  left_loop <- start_loop fuel ;;
  if left_loop then shutdown ;; ret true else ret false.

(** [n] calls of [update] in a row. *)
Fixpoint updates (n : nat) : M unit :=
  match n with
  | O => ret tt
  | S n' => update ;; updates n'
  end.

(** A sequence of [transitionToState] calls. *)
Fixpoint transitions (targets : list SystemState) : M unit :=
  match targets with
  | [] => ret tt
  | t :: rest => transitionToState t ;; transitions rest
  end.

(** The state of the last entry of a history, if there is one. *)
Definition last_state (h : list (SystemState * Z)) : option SystemState :=
  match rev h with
  | [] => None
  | entry :: _ => Some (fst entry)
  end.

(* ===================================================================== *)
(** ** What a call leaves behind *)
(* ===================================================================== *)

(** The reading that the next call of [millis] returns. *)
Definition now_ms (e : Env) : Z := to_uint32 (steady_clock e (clock_reads e)).

(** The environment after one more call of [millis]. *)
Definition ticked (e : Env) : Env :=
  mkEnv (steady_clock e) (S (clock_reads e)) (cin e) (cin_reads e) (cout e).

(** The environment after some more output. *)
Definition printed (o : list Out) (e : Env) : Env :=
  mkEnv (steady_clock e) (clock_reads e) (cin e) (cin_reads e) (cout e ++ o).

(** The object after [transitionToState newState] at clock reading [t]. *)
Definition transitioned (newState : SystemState) (t : Z) (s : FSM) : FSM :=
  mkFSM newState t (delay s) (errorCount s)
        (stateHistory s ++ [(newState, t)]) (moveCount s).

(* ===================================================================== *)
(** ** Reports, sample runs and the properties under study *)
(* ===================================================================== *)

(** What [printStatus] writes. *)
Definition status_out (s : FSM) : list Out :=
  [ OStr "[Status] State="; OInt (state_to_int (currentState s));
    OStr " MoveCount=";     OInt (moveCount s);
    OStr " Errors=";        OInt (errorCount s); OEndl ].

(** What the loop of [printStateHistory] writes for the entries [h]. *)
Fixpoint entries_out (h : list (SystemState * Z)) : list Out :=
  match h with
  | [] => []
  | entry :: rest =>
      [ OStr " ("; OInt (state_to_int (fst entry)); OStr ",";
        OInt (snd entry); OStr ")" ] ++ entries_out rest
  end.

(** What [printStateHistory] writes. *)
Definition history_out (s : FSM) : list Out :=
  OStr "[History]" :: entries_out (stateHistory s) ++ [OEndl].

Definition prompt : Out :=
  OStr "Commands: 1=Status 2=Move 3=Shoot 4=Calc 5=Stop > ".

(** The command that the next [cin >> cmd] delivers. *)
Definition next_command (e : Env) : Z := to_int (cin e (cin_reads e)).

(** The environment after one more [cin >> cmd]. *)
Definition consumed (e : Env) : Env :=
  mkEnv (steady_clock e) (clock_reads e) (cin e) (S (cin_reads e)) (cout e).

(** The switch of [performProcess] as a table: [None] is the branch that
    only reports, [Some target] a branch that calls
    [transitionToState target]. *)
Definition command_target (cmd : Z) : option SystemState :=
  match cmd with
  | 1 => None
  | 2 => Some MOVEMENT
  | 3 => Some SHOOTING
  | 4 => Some CALCULATION
  | 5 => Some STOPPED
  | _ => Some ERROR
  end.

(** What the branch of the switch for [cmd] writes. *)
Definition command_out (cmd : Z) (s : FSM) : list Out :=
  match cmd with
  | 1 => status_out s ++ history_out s
  | 2 | 3 | 4 | 5 => []
  | _ => [OStr "Invalid"; OEndl]
  end.

(** A console on which the operator types the commands [cmds] and then
    keeps asking to stop, with a clock that advances 10 ms between two
    readings. *)
Definition console (cmds : list Z) : Env :=
  mkEnv (fun k => 10 * Z.of_nat k) 0 (fun k => nth k cmds 5) 0 [].

(** A freshly constructed engine that has been initialised. *)
Definition idle_engine : FSM := fsm_after performInit FSM_default (console []).

(** An engine that was initialised and then told to stop. *)
Definition stopped_engine : FSM := fsm_after (updates 2) FSM_default (console [5]).

(** The routines that drive the engine: the targets of [update]'s switch,
    [update] itself, repeated [update], and [start]. *)
Inductive Routine : Set :=
| R_performInit | R_performProcess | R_performMovement | R_performShooting
| R_performCalculation | R_performErrorHandling | R_shutdown
| R_update
| R_updates (n : nat)
| R_start (fuel : nat).

Definition run_routine (r : Routine) : M unit :=
  match r with
  | R_performInit => performInit
  | R_performProcess => performProcess
  | R_performMovement => performMovement
  | R_performShooting => performShooting
  | R_performCalculation => performCalculation
  | R_performErrorHandling => performErrorHandling
  | R_shutdown => shutdown
  | R_update => update
  | R_updates n => updates n
  | R_start fuel => start fuel ;; ret tt
  end.

(** Two objects that agree on every field but [delay]. *)
Definition same_but_delay (s1 s2 : FSM) : Prop :=
  currentState s1 = currentState s2
  /\ lastHeartbeat s1 = lastHeartbeat s2
  /\ errorCount s1 = errorCount s2
  /\ stateHistory s1 = stateHistory s2
  /\ moveCount s1 = moveCount s2.

(** A computation that neither reads nor writes [delay]: run on an object
    with another delay, it gives the same value, the same environment and
    the same object up to that delay. *)
Definition delay_blind {A} (m : M A) : Prop :=
  forall (d : Z) (s : FSM) (e : Env),
    m (with_delay d s, e)
    = (fst (m (s, e)), (with_delay d (fst (snd (m (s, e)))), snd (snd (m (s, e))))).

(** A computation that only ever appends to the history. *)
Definition history_grows {A} (m : M A) : Prop :=
  forall (s : FSM) (e : Env),
    exists appended, stateHistory (fsm_after m s e) = stateHistory s ++ appended.

(** Every member function of [class FSM] is public; one call of each, with
    its arguments. *)
Inductive Operation : Set :=
| Op_getCurrentState
| Op_transitionToState (newState : SystemState)
| Op_setDelay (d : Z)
| Op_getDelay
| Op_setErrorCount (count : Z)
| Op_getErrorCount
| Op_setMoveCount (count : Z)
| Op_getMoveCount
| Op_addStateToHistory (state : SystemState) (time : Z)
| Op_getStateHistory
| Op_getLastHeartbeat
| Op_setLastHeartbeat (heartbeat : Z)
| Op_start (fuel : nat)
| Op_update
| Op_printStatus
| Op_printStateHistory
| Op_performInit
| Op_performProcess
| Op_performMovement
| Op_performShooting
| Op_performCalculation
| Op_performErrorHandling
| Op_shutdown.

(** The call, its value dropped. *)
Definition perform (op : Operation) : M unit :=
  match op with
  | Op_getCurrentState => getCurrentState ;; ret tt
  | Op_transitionToState newState => transitionToState newState
  | Op_setDelay d => setDelay d
  | Op_getDelay => getDelay ;; ret tt
  | Op_setErrorCount count => setErrorCount count
  | Op_getErrorCount => getErrorCount ;; ret tt
  | Op_setMoveCount count => setMoveCount count
  | Op_getMoveCount => getMoveCount ;; ret tt
  | Op_addStateToHistory state time => addStateToHistory state time
  | Op_getStateHistory => getStateHistory ;; ret tt
  | Op_getLastHeartbeat => getLastHeartbeat ;; ret tt
  | Op_setLastHeartbeat heartbeat => setLastHeartbeat heartbeat
  | Op_start fuel => start fuel ;; ret tt
  | Op_update => update
  | Op_printStatus => printStatus
  | Op_printStateHistory => printStateHistory
  | Op_performInit => performInit
  | Op_performProcess => performProcess
  | Op_performMovement => performMovement
  | Op_performShooting => performShooting
  | Op_performCalculation => performCalculation
  | Op_performErrorHandling => performErrorHandling
  | Op_shutdown => shutdown
  end.

Definition is_setErrorCount (op : Operation) : bool :=
  match op with
  | Op_setErrorCount _ => true
  | _ => false
  end.

(** The property as claimed: no public operation, the setters included,
    ever lowers [errorCount]. *)
Definition errorCount_never_decreases : Prop :=
  forall (op : Operation) (s : FSM) (e : Env),
    errorCount s <= errorCount (fsm_after (perform op) s e).

(** An engine that has handled one invalid command. *)
Definition engine_after_one_error : FSM :=
  fsm_after (updates 3) FSM_default (console [9]).

(** The loop of [start] may run [performErrorHandling] many times, so the
    bound that keeps [++] from overflowing has to survive an [update]: either
    the count is still below [INT_MAX], or the engine has stopped. *)
Definition below_max_or_stopped (s : FSM) : Prop :=
  errorCount s < INT_MAX \/ currentState s = STOPPED.

(** The last history entry names the current state. *)
Definition last_entry_agrees (s : FSM) : Prop :=
  last_state (stateHistory s) = Some (currentState s).

(** A computation that keeps the history in step with the engine: the last
    entry still names the current state afterwards, and the history has
    grown by one entry per call of [millis], that is, per call of
    [transitionToState], the only caller of [millis]. *)
Definition keeps_in_step {A} (m : M A) : Prop :=
  forall (s : FSM) (e : Env),
    last_entry_agrees s ->
    last_entry_agrees (fsm_after m s e)
    /\ (List.length (stateHistory (fsm_after m s e)) + clock_reads e
        = List.length (stateHistory s) + clock_reads (env_after m s e))%nat.

Definition is_addStateToHistory (op : Operation) : bool :=
  match op with
  | Op_addStateToHistory _ _ => true
  | _ => false
  end.

(* ===================================================================== *)
(** ** Further vocabulary: observers, the transition graph, run invariants *)
(* ===================================================================== *)

(** Everything the getters let a caller see, read through them. *)
Definition observe : M (SystemState * Z * Z * Z * Z * list (SystemState * Z)) :=
  cs <- getCurrentState ;;
  hb <- getLastHeartbeat ;;
  d <- getDelay ;;
  ec <- getErrorCount ;;
  mc <- getMoveCount ;;
  h <- getStateHistory ;;
  ret (cs, hb, d, ec, mc, h).

(** The operations that only look: the getters, the two reports and
    [shutdown]. *)
Definition is_query (op : Operation) : bool :=
  match op with
  | Op_getCurrentState | Op_getDelay | Op_getErrorCount | Op_getMoveCount
  | Op_getStateHistory | Op_getLastHeartbeat
  | Op_printStatus | Op_printStateHistory | Op_shutdown => true
  | _ => false
  end.

(** The states that one [update] can lead to, read off the handler that
    [update] dispatches to in each state. *)
Definition successors (from : SystemState) : list SystemState :=
  match from with
  | INIT => [IDLE]
  | IDLE => [IDLE; MOVEMENT; SHOOTING; CALCULATION; STOPPED; ERROR]
  | MOVEMENT => [SHOOTING; IDLE]
  | SHOOTING => [IDLE]
  | CALCULATION => [ERROR; IDLE]
  | ERROR => [STOPPED; IDLE]
  | STOPPED => [STOPPED]
  end.

(** A sequence of public calls, one after the other. *)
Fixpoint perform_all (ops : list Operation) : M unit :=
  match ops with
  | [] => ret tt
  | op :: rest => perform op ;; perform_all rest
  end.

(** The counters as the run loop keeps them: [moveCount] within [0, 3] and
    at 3 only while the engine is about to shoot, [errorCount] within
    [0, 4] and at 4 only once the engine has stopped. *)
Definition counters_in_bounds (s : FSM) : Prop :=
  0 <= moveCount s <= 3
  /\ (moveCount s = 3 -> currentState s = SHOOTING)
  /\ 0 <= errorCount s <= 4
  /\ (errorCount s = 4 -> currentState s = STOPPED).

(** The last history entry is the pair (current state, last heartbeat). *)
Definition heartbeat_agrees (s : FSM) : Prop :=
  exists earlier, stateHistory s = earlier ++ [(currentState s, lastHeartbeat s)].

(** The two calls that write the heartbeat or the history directly. *)
Definition writes_behind_the_engine (op : Operation) : bool :=
  match op with
  | Op_addStateToHistory _ _ | Op_setLastHeartbeat _ => true
  | _ => false
  end.

(** What the [k]-th call of [millis] returns. *)
Definition clock_reading (e : Env) (k : nat) : Z := to_uint32 (steady_clock e k).

(** Going from [(s, e)] to [(s', e')] stamped the history by the clock:
    the clock itself is as it was, its read position only moved forward,
    and the timestamps appended are the readings taken, in order. *)
Definition stamped_by_clock (s : FSM) (e : Env) (s' : FSM) (e' : Env) : Prop :=
  steady_clock e' = steady_clock e
  /\ (clock_reads e <= clock_reads e')%nat
  /\ map snd (stateHistory s')
     = map snd (stateHistory s)
       ++ map (clock_reading e) (seq (clock_reads e) (clock_reads e' - clock_reads e)).

Definition stamps_follow_clock {A} (m : M A) : Prop :=
  forall (s : FSM) (e : Env),
    stamped_by_clock s e (fsm_after m s e) (env_after m s e).

(** The number of [ERROR] entries in a history. *)
Definition errors_recorded (h : list (SystemState * Z)) : Z :=
  Z.of_nat (List.length (filter (fun entry => SystemState_eqb (fst entry) ERROR) h)).

(** Every error the history records has been counted, except the one the
    engine is in and has yet to handle. *)
Definition errors_on_record (s : FSM) : Prop :=
  errors_recorded (stateHistory s)
  = errorCount s + (if SystemState_eqb (currentState s) ERROR then 1 else 0).

(** The operator never again types one of the commands 1 to 5. *)
Definition only_invalid_commands (e : Env) : Prop :=
  forall k : nat,
    (cin_reads e <= k)%nat ->
    to_int (cin e k) <> 1 /\ to_int (cin e k) <> 2 /\ to_int (cin e k) <> 3
    /\ to_int (cin e k) <> 4 /\ to_int (cin e k) <> 5.

(** An upper bound on the [update]s still needed to reach [STOPPED] when
    every command is invalid: two per error the engine still tolerates, and
    up to two more to get back to [IDLE]. *)
Definition updates_left (s : FSM) : nat :=
  let tolerated := Z.to_nat (4 - errorCount s) in
  match currentState s with
  | STOPPED => 0
  | ERROR => 2 * tolerated - 1
  | IDLE => 2 * tolerated
  | INIT | SHOOTING | CALCULATION => 2 * tolerated + 1
  | MOVEMENT => 2 * tolerated + 2
  end.

(** A console on which the operator types 9 whenever asked. *)
Definition fumbling_console : Env :=
  mkEnv (fun k => 10 * Z.of_nat k) 0 (fun _ => 9) 0 [].

(** Two consoles on which the operator types the same commands from now
    on; their clocks and what they have printed may differ. *)
Definition same_commands (e1 e2 : Env) : Prop :=
  forall k : nat,
    to_int (cin e1 (cin_reads e1 + k)) = to_int (cin e2 (cin_reads e2 + k)).

(** Two runs that have got equally far: same current state, same
    counters, the same states on record (under whatever timestamps), and
    the same commands still to come. *)
Definition steered_alike (w1 w2 : World) : Prop :=
  currentState (fst w1) = currentState (fst w2)
  /\ moveCount (fst w1) = moveCount (fst w2)
  /\ errorCount (fst w1) = errorCount (fst w2)
  /\ map fst (stateHistory (fst w1)) = map fst (stateHistory (fst w2))
  /\ same_commands (snd w1) (snd w2).

(** A computation whose decisions depend on nothing but the state, the
    counters and the commands: neither on [delay], nor on [lastHeartbeat],
    nor on what the clock shows, nor on the timestamps on record. *)
Definition steered_by_commands_only {A} (m : M A) : Prop :=
  forall w1 w2 : World,
    steered_alike w1 w2 ->
    fst (m w1) = fst (m w2) /\ steered_alike (snd (m w1)) (snd (m w2)).

(** A console like [console cmds] whose clock started [offset] ms earlier
    and ticks every 3 ms. *)
Definition console_at (offset : Z) (cmds : list Z) : Env :=
  mkEnv (fun k => offset + 3 * Z.of_nat k) 0 (fun k => nth k cmds 5) 0 [].

(** An idle engine whose [moveCount], respectively [errorCount], a caller
    has set. *)
Definition engine_with_moveCount (count : Z) : FSM :=
  fsm_after (setMoveCount count) idle_engine (console []).
Definition engine_with_errorCount (count : Z) : FSM :=
  fsm_after (setErrorCount count) idle_engine (console []).

(** [performMovement] as claimed, for every engine: the count goes up by
    exactly one, the engine shoots iff the new count is at least 3, and the
    third of three Movement actions in a row ends in [SHOOTING]. *)
Definition performMovement_as_claimed : Prop :=
  forall (s : FSM) (e e2 e3 : Env),
    let s' := fsm_after performMovement s e in
    moveCount s' = moveCount s + 1
    /\ currentState s' = (if 3 <=? moveCount s + 1 then SHOOTING else IDLE)
    /\ currentState
         (fsm_after performMovement (fsm_after performMovement s' e2) e3)
       = SHOOTING.

(** [performErrorHandling] as claimed, for every engine: the count goes up
    by exactly one and the engine stops iff the new count exceeds 3. *)
Definition performErrorHandling_as_claimed : Prop :=
  forall (s : FSM) (e : Env),
    let s' := fsm_after performErrorHandling s e in
    errorCount s' = errorCount s + 1
    /\ currentState s' = (if 3 <? errorCount s + 1 then STOPPED else IDLE).

(* ===================================================================== *)
(** ** The monad and the primitives *)
(* ===================================================================== *)

Ltac unfold_monad :=
  cbv [bind ret this update_this put cin_int millis run fsm_after env_after
       value_of fst snd].

Lemma transitionToState_eq (newState : SystemState) (s : FSM) (e : Env) :
  transitionToState newState (s, e)
  = (tt, (transitioned newState (now_ms e) s, ticked e)).
Proof. reflexivity. Qed.

Lemma bind_eq {A B} (m : M A) (k : A -> M B) (w : World) :
  bind m k w = k (fst (m w)) (snd (m w)).
Proof. unfold bind. destruct (m w); reflexivity. Qed.

Lemma run_bind {A B} (m : M A) (k : A -> M B) (s : FSM) (e : Env) :
  run (bind m k) s e
  = run (k (value_of m s e)) (fsm_after m s e) (env_after m s e).
Proof.
  unfold run, fsm_after, env_after, value_of, run.
  rewrite bind_eq. destruct (m (s, e)) as [a [s' e']]; reflexivity.
Qed.

Lemma fsm_after_bind {A B} (m : M A) (k : A -> M B) (s : FSM) (e : Env) :
  fsm_after (bind m k) s e
  = fsm_after (k (value_of m s e)) (fsm_after m s e) (env_after m s e).
Proof. unfold fsm_after at 1 2. now rewrite run_bind. Qed.

Lemma fsm_after_transitionToState (newState : SystemState) (s : FSM) (e : Env) :
  fsm_after (transitionToState newState) s e = transitioned newState (now_ms e) s.
Proof. reflexivity. Qed.

(** The history after a sequence of [transitionToState] calls started in
    any state. *)
Lemma transitions_history (targets : list SystemState) :
  forall (s : FSM) (e : Env),
    map fst (stateHistory (fsm_after (transitions targets) s e))
    = map fst (stateHistory s) ++ targets.
Proof.
  induction targets as [|t rest IH]; intros s e.
  - cbn. now rewrite app_nil_r.
  - unfold fsm_after. cbn [transitions]. rewrite run_bind.
    fold (fsm_after (transitions rest)
            (fsm_after (transitionToState t) s e)
            (env_after (transitionToState t) s e)).
    rewrite IH, fsm_after_transitionToState. cbn [transitioned stateHistory].
    rewrite map_app, <- app_assoc. reflexivity.
Qed.

Lemma last_state_app (h : list (SystemState * Z)) (st : SystemState) (t : Z) :
  last_state (h ++ [(st, t)]) = Some st.
Proof. unfold last_state. rewrite rev_app_distr. reflexivity. Qed.

Lemma transitions_current (targets : list SystemState) :
  forall (s : FSM) (e : Env),
    last_state (stateHistory s) = Some (currentState s) ->
    let s' := fsm_after (transitions targets) s e in
    last_state (stateHistory s') = Some (currentState s').
Proof.
  induction targets as [|t rest IH]; intros s e Hs.
  - exact Hs.
  - cbn zeta. unfold fsm_after. cbn [transitions]. rewrite run_bind.
    apply IH. rewrite fsm_after_transitionToState. cbn [transitioned stateHistory currentState].
    apply last_state_app.
Qed.

(* ===================================================================== *)
(** ** History and current state *)
(* ===================================================================== *)

(** C1.  After construction (by either constructor) and any sequence of
    [transitionToState] calls, the history holds one entry more than there
    were calls: the seed [(INIT, 0)] followed by one entry per call, in call
    order; and the state of its last entry is [currentState]. *)
Theorem history_tracks_transitions :
  forall (d : option Z) (targets : list SystemState) (e : Env),
    let s' := fsm_after (transitions targets) (construct d) e in
    length (stateHistory s') = (1 + length targets)%nat
    /\ map fst (stateHistory s') = INIT :: targets
    /\ last_state (stateHistory s') = Some (currentState s').
Proof.
  intros d targets e s'.
  assert (Hmap : map fst (stateHistory s') = INIT :: targets).
  { unfold s'. rewrite transitions_history. destruct d; reflexivity. }
  split; [|split].
  - rewrite <- (length_map fst), Hmap. reflexivity.
  - exact Hmap.
  - apply transitions_current. destruct d; reflexivity.
Qed.

(* ===================================================================== *)
(** ** Closed forms of the reports and the handlers *)
(* ===================================================================== *)

Lemma printed_printed (o1 o2 : list Out) (e : Env) :
  printed o2 (printed o1 e) = printed (o1 ++ o2) e.
Proof. unfold printed; cbn. now rewrite <- app_assoc. Qed.

Lemma put_eq (o : Out) (s : FSM) (e : Env) :
  put o (s, e) = (tt, (s, printed [o] e)).
Proof. reflexivity. Qed.

Lemma printStatus_eq (s : FSM) (e : Env) :
  printStatus (s, e) = (tt, (s, printed (status_out s) e)).
Proof.
  unfold printStatus, status_out. unfold_monad. unfold printed. cbn.
  repeat rewrite <- app_assoc. reflexivity.
Qed.

Lemma print_entries_eq (h : list (SystemState * Z)) :
  forall (s : FSM) (e : Env),
    print_entries h (s, e) = (tt, (s, printed (entries_out h) e)).
Proof.
  induction h as [|entry rest IH]; intros s e.
  - unfold printed; cbn. rewrite app_nil_r. destruct e; reflexivity.
  - cbn [print_entries entries_out].
    repeat (rewrite bind_eq, put_eq; cbn [fst snd]).
    rewrite IH. repeat rewrite printed_printed. reflexivity.
Qed.

Lemma printStateHistory_eq (s : FSM) (e : Env) :
  printStateHistory (s, e) = (tt, (s, printed (history_out s) e)).
Proof.
  unfold printStateHistory, history_out.
  rewrite bind_eq, put_eq; cbn [fst snd].
  rewrite bind_eq; cbn [this fst snd].
  rewrite bind_eq, print_entries_eq; cbn [fst snd].
  rewrite put_eq. repeat rewrite printed_printed. reflexivity.
Qed.

Lemma performInit_eq (s : FSM) (e : Env) :
  performInit (s, e)
  = (tt, (transitioned IDLE (now_ms e) s,
          ticked (printed [OStr "Initializing..."; OEndl] e))).
Proof.
  unfold performInit. unfold_monad. unfold printed, ticked, now_ms; cbn.
  rewrite <- app_assoc. reflexivity.
Qed.

Lemma performMovement_eq (s : FSM) (e : Env) :
  performMovement (s, e)
  = (tt, (transitioned (if 3 <=? int_incr (moveCount s) then SHOOTING else IDLE)
                       (now_ms e)
                       (with_moveCount (int_incr (moveCount s)) s),
          ticked (printed [OStr "Moving..."; OEndl] e))).
Proof.
  unfold performMovement. unfold_monad. unfold printed, ticked, now_ms; cbn.
  rewrite <- app_assoc. reflexivity.
Qed.

Lemma performShooting_eq (s : FSM) (e : Env) :
  performShooting (s, e)
  = (tt, (transitioned IDLE (now_ms e) (with_moveCount 0 s),
          ticked (printed [OStr "Shooting..."; OEndl] e))).
Proof.
  unfold performShooting. unfold_monad. unfold printed, ticked, now_ms; cbn.
  rewrite <- app_assoc. reflexivity.
Qed.

Lemma performCalculation_eq (s : FSM) (e : Env) :
  performCalculation (s, e)
  = (tt, (transitioned (if moveCount s =? 0 then ERROR else IDLE) (now_ms e) s,
          ticked (printed [OStr "Calculating..."; OEndl] e))).
Proof.
  unfold performCalculation. unfold_monad. unfold printed, ticked, now_ms; cbn.
  rewrite <- app_assoc. destruct (moveCount s =? 0); reflexivity.
Qed.

Lemma performErrorHandling_eq (s : FSM) (e : Env) :
  performErrorHandling (s, e)
  = (tt, (transitioned (if 3 <? int_incr (errorCount s) then STOPPED else IDLE)
                       (now_ms e)
                       (with_errorCount (int_incr (errorCount s)) s),
          ticked (printed [OStr "Error!"; OEndl] e))).
Proof.
  unfold performErrorHandling. unfold_monad. unfold printed, ticked, now_ms; cbn.
  rewrite <- app_assoc. reflexivity.
Qed.

Lemma shutdown_eq (s : FSM) (e : Env) :
  shutdown (s, e)
  = (tt, (s, printed ([OStr "Shutting down..."; OEndl] ++ history_out s) e)).
Proof.
  unfold shutdown.
  repeat (rewrite bind_eq, put_eq; cbn [fst snd]).
  rewrite printStateHistory_eq. repeat rewrite printed_printed. reflexivity.
Qed.

Lemma performProcess_eq (s : FSM) (e : Env) :
  performProcess (s, e)
  = (tt,
     match command_target (next_command e) with
     | None =>
         (s, printed (status_out s ++ [prompt] ++ command_out (next_command e) s)
                     (consumed e))
     | Some target =>
         (transitioned target (now_ms e) s,
          ticked (printed (status_out s ++ [prompt] ++ command_out (next_command e) s)
                          (consumed e)))
     end).
Proof.
  unfold performProcess.
  rewrite bind_eq, printStatus_eq; cbn [fst snd].
  rewrite bind_eq, put_eq; cbn [fst snd].
  rewrite bind_eq. cbn [cin_int fst snd]. rewrite printed_printed.
  change (to_int (cin (printed (status_out s ++ [OStr "Commands: 1=Status 2=Move 3=Shoot 4=Calc 5=Stop > "]) e)
                      (cin_reads (printed (status_out s ++ [OStr "Commands: 1=Status 2=Move 3=Shoot 4=Calc 5=Stop > "]) e))))
    with (next_command e).
  set (cmd := next_command e).
  assert (Hdefault : forall w : World,
            (put (OStr "Invalid") ;; put OEndl ;; transitionToState ERROR) w
            = (tt, (transitioned ERROR (now_ms (snd w)) (fst w),
                    ticked (printed [OStr "Invalid"; OEndl] (snd w))))).
  { intros [s0 e0]. unfold_monad. unfold printed, ticked, now_ms; cbn.
    rewrite <- app_assoc. reflexivity. }
  assert (Hreport : forall (s0 : FSM) (e0 : Env),
            (printStatus ;; printStateHistory) (s0, e0)
            = (tt, (s0, printed (status_out s0 ++ history_out s0) e0))).
  { intros s0 e0. rewrite bind_eq, printStatus_eq; cbn [fst snd].
    rewrite printStateHistory_eq, printed_printed. reflexivity. }
  destruct cmd as [|p|p];
    [ rewrite Hdefault; cbn [fst snd command_target command_out];
      unfold printed, ticked, consumed, now_ms; cbn;
      repeat rewrite <- app_assoc; reflexivity
    |
    | rewrite Hdefault; cbn [fst snd command_target command_out];
      unfold printed, ticked, consumed, now_ms; cbn;
      repeat rewrite <- app_assoc; reflexivity ].
  destruct p as [[p|p|]|[p|p|]|];
    try destruct p;
    first
      [ rewrite Hreport
      | rewrite Hdefault
      | rewrite transitionToState_eq ];
    cbn [fst snd command_target command_out];
    unfold printed, ticked, consumed, now_ms; cbn;
    repeat rewrite <- app_assoc; cbn; try rewrite app_nil_r; reflexivity.
Qed.

Lemma update_eq (s : FSM) (e : Env) :
  update (s, e)
  = match currentState s with
    | INIT => performInit (s, e)
    | IDLE => performProcess (s, e)
    | MOVEMENT => performMovement (s, e)
    | SHOOTING => performShooting (s, e)
    | CALCULATION => performCalculation (s, e)
    | ERROR => performErrorHandling (s, e)
    | STOPPED => shutdown (s, e)
    end.
Proof. unfold update. rewrite bind_eq. cbn [this fst snd]. destruct (currentState s); reflexivity. Qed.

Lemma command_target_other (cmd : Z) :
  cmd <> 1 -> cmd <> 2 -> cmd <> 3 -> cmd <> 4 -> cmd <> 5 ->
  command_target cmd = Some ERROR /\ (forall s, command_out cmd s = [OStr "Invalid"; OEndl]).
Proof.
  intros H1 H2 H3 H4 H5.
  destruct cmd as [|p|p]; [split; reflexivity | | split; reflexivity].
  destruct p as [[p|p|]|[p|p|]|]; try destruct p;
    try (split; reflexivity); exfalso; lia.
Qed.

Lemma to_int_id (x : Z) : INT_MIN <= x <= INT_MAX -> to_int x = x.
Proof.
  unfold to_int, UINT32_MODULUS, INT_MIN, INT_MAX. intros H.
  rewrite Z.mod_small; lia.
Qed.

Lemma to_int_range (x : Z) : INT_MIN <= to_int x <= INT_MAX.
Proof.
  unfold to_int, UINT32_MODULUS, INT_MIN, INT_MAX.
  pose proof (Z.mod_pos_bound (x + 2147483648) 4294967296 ltac:(lia)). lia.
Qed.

Lemma int_incr_plus_one (x : Z) : INT_MIN <= x < INT_MAX -> int_incr x = x + 1.
Proof. intros H. unfold int_incr. apply to_int_id. lia. Qed.

(** Below [INT_MAX] a counter never goes down by [++], whatever it held. *)
Lemma int_incr_ge (x : Z) : x < INT_MAX -> x <= int_incr x.
Proof.
  intros H. destruct (Z_lt_le_dec x INT_MIN) as [Hlo|Hlo].
  - pose proof (to_int_range (x + 1)). unfold int_incr. lia.
  - rewrite int_incr_plus_one; lia.
Qed.

(* ===================================================================== *)
(** ** The handlers *)
(* ===================================================================== *)

(** C2.  In [IDLE], [update] runs [performProcess], which reads exactly
    one command.  On 1 it writes the status, the prompt, the status again
    and the history, and leaves the object as it was (still [IDLE], history
    unchanged); on 2, 3, 4, 5 it calls [transitionToState] with [MOVEMENT],
    [SHOOTING], [CALCULATION], [STOPPED]; on every other integer it calls
    [transitionToState ERROR]. *)
Theorem idle_command_table :
  forall (s : FSM) (e : Env),
    currentState s = IDLE ->
    let cmd := next_command e in
    let s' := fsm_after performProcess s e in
    let e' := env_after performProcess s e in
    update (s, e) = performProcess (s, e)
    /\ cin_reads e' = S (cin_reads e)
    /\ (cmd = 1 ->
        s' = s /\ currentState s' = IDLE
        /\ cout e' = cout e ++ status_out s ++ [prompt] ++ status_out s ++ history_out s)
    /\ (cmd = 2 -> s' = transitioned MOVEMENT (now_ms e) s)
    /\ (cmd = 3 -> s' = transitioned SHOOTING (now_ms e) s)
    /\ (cmd = 4 -> s' = transitioned CALCULATION (now_ms e) s)
    /\ (cmd = 5 -> s' = transitioned STOPPED (now_ms e) s)
    /\ (cmd <> 1 -> cmd <> 2 -> cmd <> 3 -> cmd <> 4 -> cmd <> 5 ->
        s' = transitioned ERROR (now_ms e) s).
Proof.
  intros s e Hidle cmd s' e'.
  split. { rewrite update_eq, Hidle. reflexivity. }
  unfold s', e', fsm_after, env_after, run. rewrite performProcess_eq.
  fold cmd. cbn [fst snd].
  split. { destruct (command_target cmd); reflexivity. }
  split.
  { intros ->. cbn [command_target command_out fst snd].
    split; [reflexivity|]. split; [exact Hidle|].
    unfold printed, consumed; cbn. reflexivity. }
  do 4 (split; [intros ->; reflexivity|]).
  intros H1 H2 H3 H4 H5.
  destruct (command_target_other cmd H1 H2 H3 H4 H5) as [-> _]. reflexivity.
Qed.

Lemma idle_command_table_witness :
  currentState idle_engine = IDLE
  /\ fsm_after performProcess idle_engine (console [2])
     = transitioned MOVEMENT 0 idle_engine.
Proof.
  split; [reflexivity|].
  apply (idle_command_table idle_engine (console [2]) eq_refl). reflexivity.
Defined.

(** C3, amended.  [performMovement] performs [moveCount++]: the count goes
    up by exactly 1 whenever it is below [INT_MAX].  It then calls [transitionToState] once, with [SHOOTING] if the stored
    count is at least 3 and with [IDLE] otherwise, and touches no other
    counter.  Hence three Movement actions, between which nothing changes
    [moveCount], end in [SHOOTING] when they start from a count in
    [0, INT_MAX - 3]. *)
Theorem movement_increments_and_decides :
  forall (s : FSM) (e : Env),
    let s' := fsm_after performMovement s e in
    moveCount s' = int_incr (moveCount s)
    /\ (INT_MIN <= moveCount s < INT_MAX -> moveCount s' = moveCount s + 1)
    /\ currentState s' = (if 3 <=? moveCount s' then SHOOTING else IDLE)
    /\ stateHistory s' = stateHistory s ++ [(currentState s', now_ms e)]
    /\ errorCount s' = errorCount s
    /\ (0 <= moveCount s <= INT_MAX - 3 ->
        forall (s2 s3 : FSM) (e2 e3 : Env),
          moveCount s2 = moveCount s' ->
          moveCount s3 = moveCount (fsm_after performMovement s2 e2) ->
          currentState (fsm_after performMovement s3 e3) = SHOOTING).
Proof.
  intros s e s'. unfold s', fsm_after, run.
  rewrite performMovement_eq. cbn [fst snd transitioned with_moveCount
    moveCount currentState stateHistory errorCount].
  split; [reflexivity|].
  split. { intros H. now apply int_incr_plus_one. }
  do 3 (split; [reflexivity|]).
  intros H s2 s3 e2 e3 H2 H3.
  rewrite performMovement_eq in *. cbn [fst snd transitioned with_moveCount
    moveCount currentState] in *.
  unfold INT_MIN, INT_MAX in *.
  rewrite H3, H2.
  rewrite (int_incr_plus_one (moveCount s)) by (unfold INT_MIN, INT_MAX; lia).
  rewrite (int_incr_plus_one (moveCount s + 1)) by (unfold INT_MIN, INT_MAX; lia).
  rewrite (int_incr_plus_one (moveCount s + 1 + 1)) by (unfold INT_MIN, INT_MAX; lia).
  destruct (Z.leb_spec 3 (moveCount s + 1 + 1 + 1)); [reflexivity | lia].
Qed.

Lemma movement_increments_and_decides_witness :
  INT_MIN <= moveCount FSM_default < INT_MAX
  /\ moveCount (fsm_after performMovement FSM_default (console []))
     = moveCount FSM_default + 1
  /\ 0 <= moveCount FSM_default <= INT_MAX - 3
  /\ currentState
       (fsm_after performMovement
          (fsm_after performMovement
             (fsm_after performMovement FSM_default (console []))
             (console []))
          (console []))
     = SHOOTING.
Proof.
  assert (Hrange : INT_MIN <= moveCount FSM_default < INT_MAX)
    by (unfold INT_MIN, INT_MAX; cbn; lia).
  assert (Hstart : 0 <= moveCount FSM_default <= INT_MAX - 3)
    by (unfold INT_MAX; cbn; lia).
  destruct (movement_increments_and_decides FSM_default (console []))
    as (_ & Hplus & _ & _ & _ & Hthree).
  split; [exact Hrange|]. split; [exact (Hplus Hrange)|]. split; [exact Hstart|].
  apply (Hthree Hstart
           (fsm_after performMovement FSM_default (console []))
           (fsm_after performMovement
              (fsm_after performMovement FSM_default (console []))
              (console []))
           (console []) (console []));
    reflexivity.
Defined.

(** C4, amended.  [performErrorHandling] performs [errorCount++]: the
    count goes up by exactly 1 whenever it is below [INT_MAX].  It then calls
    [transitionToState] once, with [STOPPED] if the stored count exceeds 3
    and with [IDLE] otherwise, and leaves [moveCount] alone.  In particular
    the error that takes the count from 3 to 4 leads to [STOPPED], and that
    is the fourth error of an engine whose count started at 0: the first
    three lead back to [IDLE]. *)
Theorem error_handling_increments_and_decides :
  forall (s : FSM) (e : Env),
    let s' := fsm_after performErrorHandling s e in
    errorCount s' = int_incr (errorCount s)
    /\ (INT_MIN <= errorCount s < INT_MAX -> errorCount s' = errorCount s + 1)
    /\ currentState s' = (if 3 <? errorCount s' then STOPPED else IDLE)
    /\ stateHistory s' = stateHistory s ++ [(currentState s', now_ms e)]
    /\ moveCount s' = moveCount s
    /\ (errorCount s = 3 -> errorCount s' = 4 /\ currentState s' = STOPPED)
    /\ (errorCount s = 0 ->
        forall (s2 s3 s4 : FSM) (e2 e3 e4 : Env),
          errorCount s2 = errorCount s' ->
          errorCount s3 = errorCount (fsm_after performErrorHandling s2 e2) ->
          errorCount s4 = errorCount (fsm_after performErrorHandling s3 e3) ->
          currentState s' = IDLE
          /\ currentState (fsm_after performErrorHandling s2 e2) = IDLE
          /\ currentState (fsm_after performErrorHandling s3 e3) = IDLE
          /\ errorCount (fsm_after performErrorHandling s4 e4) = 4
          /\ currentState (fsm_after performErrorHandling s4 e4) = STOPPED).
Proof.
  intros s e s'. unfold s', fsm_after, run.
  rewrite performErrorHandling_eq. cbn [fst snd transitioned with_errorCount
    moveCount currentState stateHistory errorCount].
  split; [reflexivity|].
  split. { intros H. now apply int_incr_plus_one. }
  do 3 (split; [reflexivity|]).
  split. { intros ->. split; reflexivity. }
  intros H s2 s3 s4 e2 e3 e4 H2 H3 H4.
  rewrite !performErrorHandling_eq in *. cbn [fst snd transitioned with_errorCount
    moveCount currentState errorCount] in *.
  rewrite H4, H3, H2, H. repeat split; reflexivity.
Qed.

Lemma error_handling_increments_and_decides_witness :
  INT_MIN <= errorCount FSM_default < INT_MAX
  /\ errorCount (fsm_after performErrorHandling FSM_default (console []))
     = errorCount FSM_default + 1
  /\ errorCount (engine_with_errorCount 3) = 3
  /\ currentState (fsm_after performErrorHandling (engine_with_errorCount 3)
                     (console [])) = STOPPED
  /\ errorCount FSM_default = 0
  /\ currentState
       (fsm_after performErrorHandling
          (fsm_after performErrorHandling
             (fsm_after performErrorHandling
                (fsm_after performErrorHandling FSM_default (console []))
                (console []))
             (console []))
          (console []))
     = STOPPED.
Proof.
  assert (Hrange : INT_MIN <= errorCount FSM_default < INT_MAX)
    by (unfold INT_MIN, INT_MAX; cbn; lia).
  destruct (error_handling_increments_and_decides FSM_default (console []))
    as (_ & Hplus & _ & _ & _ & _ & Hfour).
  destruct (error_handling_increments_and_decides (engine_with_errorCount 3)
              (console []))
    as (_ & _ & _ & _ & _ & Hthree & _).
  split; [exact Hrange|]. split; [exact (Hplus Hrange)|].
  split; [reflexivity|]. split; [exact (proj2 (Hthree eq_refl))|].
  split; [reflexivity|].
  exact (proj2 (proj2 (proj2 (proj2
    (Hfour eq_refl
       (fsm_after performErrorHandling FSM_default (console []))
       (fsm_after performErrorHandling
          (fsm_after performErrorHandling FSM_default (console []))
          (console []))
       (fsm_after performErrorHandling
          (fsm_after performErrorHandling
             (fsm_after performErrorHandling FSM_default (console []))
             (console []))
          (console []))
       (console []) (console []) (console [])
       eq_refl eq_refl eq_refl))))).
Defined.

(** C5.  [performCalculation] calls [transitionToState] once, with [ERROR]
    when [moveCount] is 0 and with [IDLE] when it is positive, and changes
    neither [moveCount] nor [errorCount]. *)
Theorem calculation_needs_a_move :
  forall (s : FSM) (e : Env),
    let s' := fsm_after performCalculation s e in
    (moveCount s = 0 -> currentState s' = ERROR)
    /\ (0 < moveCount s -> currentState s' = IDLE)
    /\ moveCount s' = moveCount s
    /\ errorCount s' = errorCount s
    /\ s' = transitioned (currentState s') (now_ms e) s.
Proof.
  intros s e s'. unfold s', fsm_after, run.
  rewrite performCalculation_eq. cbn [fst snd transitioned moveCount
    currentState errorCount].
  split. { intros ->. reflexivity. }
  split. { intros H. destruct (Z.eqb_spec (moveCount s) 0); [lia | reflexivity]. }
  repeat split.
Qed.

Lemma calculation_needs_a_move_witness :
  moveCount idle_engine = 0
  /\ currentState (fsm_after performCalculation idle_engine (console [])) = ERROR.
Proof.
  split; [reflexivity|].
  destruct (calculation_needs_a_move idle_engine (console [])) as (Hzero & _).
  apply Hzero. reflexivity.
Defined.

(** [performInit] never writes [delay]: the object it leaves is the one
    [transitionToState IDLE] leaves. *)
Lemma performInit_keeps_delay (s : FSM) (e : Env) :
  fsm_after performInit s e = transitioned IDLE (now_ms e) s
  /\ delay (fsm_after performInit s e) = delay s.
Proof.
  unfold fsm_after, run. rewrite performInit_eq. split; reflexivity.
Qed.

(** C6.  On an engine built by [FSM()], which configures no delay,
    [performInit] goes to [IDLE] but leaves [delay] at the constructor's 0:
    the default of 1000 ms is never stored. *)
Theorem performInit_default_delay :
  forall e : Env,
    let s' := fsm_after performInit FSM_default e in
    currentState s' = IDLE /\ delay s' = 0 /\ delay s' <> 1000.
Proof.
  intros e s'. unfold s'.
  destruct (performInit_keeps_delay FSM_default e) as [-> _].
  cbn. repeat split. discriminate.
Qed.

(** C10.  [addStateToHistory state time] appends exactly [(state, time)]
    to the history and changes no other field, nor the console or the
    clock.  When [state] is not the current state, the last history entry
    then disagrees with [currentState]. *)
Theorem addStateToHistory_frame :
  forall (s : FSM) (e : Env) (state : SystemState) (time : Z),
    let s' := fsm_after (addStateToHistory state time) s e in
    stateHistory s' = stateHistory s ++ [(state, time)]
    /\ currentState s' = currentState s
    /\ lastHeartbeat s' = lastHeartbeat s
    /\ delay s' = delay s
    /\ errorCount s' = errorCount s
    /\ moveCount s' = moveCount s
    /\ env_after (addStateToHistory state time) s e = e
    /\ (state <> currentState s ->
        last_state (stateHistory s') <> Some (currentState s')).
Proof.
  intros s e state time s'. unfold s'. cbn.
  repeat split.
  intros Hneq. rewrite last_state_app. congruence.
Qed.

Lemma addStateToHistory_frame_witness :
  STOPPED <> currentState idle_engine
  /\ last_state (stateHistory (fsm_after (addStateToHistory STOPPED 7)
                                 idle_engine (console [])))
     <> Some (currentState (fsm_after (addStateToHistory STOPPED 7)
                              idle_engine (console []))).
Proof.
  split; [discriminate|].
  apply (addStateToHistory_frame idle_engine (console []) STOPPED 7).
  discriminate.
Defined.

Lemma fsm_after_updates_S (n : nat) (s : FSM) (e : Env) :
  fsm_after (updates (S n)) s e
  = fsm_after (updates n) (fsm_after update s e) (env_after update s e).
Proof. unfold fsm_after. cbn [updates]. now rewrite run_bind. Qed.

Lemma update_in_stopped (s : FSM) (e : Env) :
  currentState s = STOPPED ->
  update (s, e) = shutdown (s, e) /\ fsm_after update s e = s.
Proof.
  intros H. unfold fsm_after, run. rewrite update_eq, H, shutdown_eq.
  split; reflexivity.
Qed.

(** C8.  Once [currentState] is [STOPPED], [update] runs [shutdown] and
    nothing else, [shutdown] changes no field of the object (from any
    state), and so no number of further [update] calls changes
    [currentState], nor any other field, nor the history. *)
Theorem stopped_is_terminal :
  forall (s : FSM) (e : Env) (n : nat),
    currentState s = STOPPED ->
    update (s, e) = shutdown (s, e)
    /\ (forall (s0 : FSM) (e0 : Env), fsm_after shutdown s0 e0 = s0)
    /\ fsm_after (updates n) s e = s
    /\ currentState (fsm_after (updates n) s e) = STOPPED.
Proof.
  intros s e n H.
  split. { now apply update_in_stopped. }
  split. { intros s0 e0. unfold fsm_after, run. now rewrite shutdown_eq. }
  assert (Hn : fsm_after (updates n) s e = s).
  { revert e. induction n as [|n IH]; intros e.
    - reflexivity.
    - rewrite fsm_after_updates_S.
      destruct (update_in_stopped s e H) as [_ ->]. apply IH. }
  split; [exact Hn | now rewrite Hn].
Qed.

Lemma stopped_is_terminal_witness :
  currentState stopped_engine = STOPPED
  /\ fsm_after (updates 5) stopped_engine (console [2; 3]) = stopped_engine.
Proof.
  split; [reflexivity|].
  apply (stopped_is_terminal stopped_engine (console [2; 3]) 5 eq_refl).
Defined.

(* ===================================================================== *)
(** ** The delay does not steer the engine *)
(* ===================================================================== *)

Lemma delay_blind_bind {A B} (m : M A) (k : A -> M B) :
  delay_blind m -> (forall a, delay_blind (k a)) -> delay_blind (bind m k).
Proof.
  intros Hm Hk d s e. rewrite !bind_eq, Hm. cbn [fst snd].
  rewrite Hk. destruct (m (s, e)) as [a [s' e']]. reflexivity.
Qed.

Lemma delay_blind_ret {A} (a : A) : delay_blind (ret a).
Proof. intros d s e. reflexivity. Qed.

Lemma delay_blind_performInit : delay_blind performInit.
Proof. intros d s e. rewrite !performInit_eq. reflexivity. Qed.

Lemma delay_blind_performMovement : delay_blind performMovement.
Proof. intros d s e. rewrite !performMovement_eq. reflexivity. Qed.

Lemma delay_blind_performShooting : delay_blind performShooting.
Proof. intros d s e. rewrite !performShooting_eq. reflexivity. Qed.

Lemma delay_blind_performCalculation : delay_blind performCalculation.
Proof. intros d s e. rewrite !performCalculation_eq. reflexivity. Qed.

Lemma delay_blind_performErrorHandling : delay_blind performErrorHandling.
Proof. intros d s e. rewrite !performErrorHandling_eq. reflexivity. Qed.

Lemma delay_blind_shutdown : delay_blind shutdown.
Proof. intros d s e. rewrite !shutdown_eq. reflexivity. Qed.

Lemma delay_blind_performProcess : delay_blind performProcess.
Proof.
  intros d s e. rewrite !performProcess_eq.
  destruct (command_target (next_command e)); cbn [fst snd].
  - reflexivity.
  - assert (Hout : command_out (next_command e) (with_delay d s)
                   = command_out (next_command e) s).
    { destruct (next_command e) as [|[[p|p|]|[p|p|]|]|]; reflexivity. }
    rewrite Hout. reflexivity.
Qed.

Lemma delay_blind_update : delay_blind update.
Proof.
  intros d s e. rewrite !update_eq. cbn [with_delay currentState].
  destruct (currentState s).
  - apply delay_blind_performInit.
  - apply delay_blind_performProcess.
  - apply delay_blind_performMovement.
  - apply delay_blind_performShooting.
  - apply delay_blind_performCalculation.
  - apply delay_blind_performErrorHandling.
  - apply delay_blind_shutdown.
Qed.

Lemma delay_blind_updates (n : nat) : delay_blind (updates n).
Proof.
  induction n as [|n IH]; cbn [updates].
  - apply delay_blind_ret.
  - apply delay_blind_bind; [apply delay_blind_update | intros _; exact IH].
Qed.

Lemma start_loop_eq (fuel : nat) (s : FSM) (e : Env) :
  start_loop fuel (s, e)
  = if SystemState_eqb (currentState s) STOPPED then (true, (s, e))
    else match fuel with
         | O => (false, (s, e))
         | S fuel' => (update ;; start_loop fuel') (s, e)
         end.
Proof.
  destruct fuel; cbn [start_loop]; rewrite bind_eq; cbn [this fst snd];
    destruct (SystemState_eqb (currentState s) STOPPED); reflexivity.
Qed.

Lemma delay_blind_start_loop (fuel : nat) : delay_blind (start_loop fuel).
Proof.
  induction fuel as [|fuel IH]; intros d s e; rewrite !start_loop_eq;
    cbn [with_delay currentState];
    destruct (SystemState_eqb (currentState s) STOPPED); try reflexivity.
  apply delay_blind_bind; [apply delay_blind_update | intros _; exact IH].
Qed.

Lemma delay_blind_start (fuel : nat) : delay_blind (start fuel).
Proof.
  unfold start.
  apply delay_blind_bind; [apply delay_blind_performInit | intros _].
  apply delay_blind_bind; [apply delay_blind_start_loop | intros [|]].
  - apply delay_blind_bind; [apply delay_blind_shutdown | intros _].
    apply delay_blind_ret.
  - apply delay_blind_ret.
Qed.

Lemma delay_blind_routine (r : Routine) : delay_blind (run_routine r).
Proof.
  destruct r; cbn [run_routine].
  - apply delay_blind_performInit.
  - apply delay_blind_performProcess.
  - apply delay_blind_performMovement.
  - apply delay_blind_performShooting.
  - apply delay_blind_performCalculation.
  - apply delay_blind_performErrorHandling.
  - apply delay_blind_shutdown.
  - apply delay_blind_update.
  - apply delay_blind_updates.
  - apply delay_blind_bind; [apply delay_blind_start | intros _; apply delay_blind_ret].
Qed.

Lemma same_but_delay_with_delay (s1 s2 : FSM) :
  same_but_delay s1 s2 -> s2 = with_delay (delay s2) s1.
Proof.
  destruct s1, s2. unfold same_but_delay, with_delay. cbn.
  intros (-> & -> & -> & -> & ->). reflexivity.
Qed.

Lemma history_grows_bind {A B} (m : M A) (k : A -> M B) :
  history_grows m -> (forall a, history_grows (k a)) -> history_grows (bind m k).
Proof.
  intros Hm Hk s e.
  destruct (Hm s e) as [a1 H1].
  destruct (Hk (value_of m s e) (fsm_after m s e) (env_after m s e)) as [a2 H2].
  exists (a1 ++ a2).
  replace (fsm_after (bind m k) s e)
    with (fsm_after (k (value_of m s e)) (fsm_after m s e) (env_after m s e))
    by (unfold fsm_after at 1 3; now rewrite run_bind).
  rewrite H2, H1. now rewrite app_assoc.
Qed.

Lemma history_grows_ret {A} (a : A) : history_grows (ret a).
Proof. intros s e. exists []. cbn. now rewrite app_nil_r. Qed.

Lemma history_grows_update : history_grows update.
Proof.
  intros s e. unfold fsm_after, run. rewrite update_eq.
  destruct (currentState s).
  - rewrite performInit_eq. eexists; reflexivity.
  - rewrite performProcess_eq. destruct (command_target (next_command e)).
    + eexists; reflexivity.
    + exists []. cbn. now rewrite app_nil_r.
  - rewrite performMovement_eq. eexists; reflexivity.
  - rewrite performShooting_eq. eexists; reflexivity.
  - rewrite performCalculation_eq. eexists; reflexivity.
  - rewrite performErrorHandling_eq. eexists; reflexivity.
  - rewrite shutdown_eq. exists []. cbn. now rewrite app_nil_r.
Qed.

Lemma history_grows_shutdown : history_grows shutdown.
Proof.
  intros s e. unfold fsm_after, run. rewrite shutdown_eq.
  exists []. cbn. now rewrite app_nil_r.
Qed.

Lemma history_grows_performInit : history_grows performInit.
Proof.
  intros s e. unfold fsm_after, run. rewrite performInit_eq. eexists; reflexivity.
Qed.

Lemma history_grows_updates (n : nat) : history_grows (updates n).
Proof.
  induction n as [|n IH]; cbn [updates].
  - apply history_grows_ret.
  - apply history_grows_bind; [apply history_grows_update | intros _; exact IH].
Qed.

Lemma history_grows_start_loop (fuel : nat) : history_grows (start_loop fuel).
Proof.
  induction fuel as [|fuel IH]; intros s e; unfold fsm_after, run;
    rewrite start_loop_eq;
    destruct (SystemState_eqb (currentState s) STOPPED);
    try (exists []; cbn; now rewrite app_nil_r).
  apply (history_grows_bind update (fun _ => start_loop fuel));
    [apply history_grows_update | intros _; exact IH].
Qed.

Lemma history_grows_routine (r : Routine) : history_grows (run_routine r).
Proof.
  destruct r; cbn [run_routine];
    try (intros s e; unfold fsm_after, run;
         first [ rewrite performInit_eq | rewrite performMovement_eq
               | rewrite performShooting_eq | rewrite performCalculation_eq
               | rewrite performErrorHandling_eq ];
         eexists; reflexivity).
  - intros s e. unfold fsm_after, run. rewrite performProcess_eq.
    destruct (command_target (next_command e)).
    + eexists; reflexivity.
    + exists []. cbn. now rewrite app_nil_r.
  - apply history_grows_shutdown.
  - apply history_grows_update.
  - apply history_grows_updates.
  - apply history_grows_bind; [|intros _; apply history_grows_ret].
    unfold start.
    apply history_grows_bind; [apply history_grows_performInit | intros _].
    apply history_grows_bind; [apply history_grows_start_loop | intros [|]].
    + apply history_grows_bind; [apply history_grows_shutdown | intros _].
      apply history_grows_ret.
    + apply history_grows_ret.
Qed.

(** Run in one and the same environment (same commands, same clock), two
    objects that differ only in [delay] go through the same run: same
    fields apart from [delay], same entries appended, same environment
    left behind, and each keeps its own [delay]. *)
Lemma delay_is_carried_along :
  forall (r : Routine) (s1 s2 : FSM) (e : Env),
    same_but_delay s1 s2 ->
    let s1' := fsm_after (run_routine r) s1 e in
    let s2' := fsm_after (run_routine r) s2 e in
    currentState s1' = currentState s2'
    /\ moveCount s1' = moveCount s2'
    /\ errorCount s1' = errorCount s2'
    /\ (exists appended,
          stateHistory s1' = stateHistory s1 ++ appended
          /\ stateHistory s2' = stateHistory s2 ++ appended)
    /\ same_but_delay s1' s2'
    /\ delay s1' = delay s1
    /\ delay s2' = delay s2
    /\ env_after (run_routine r) s1 e = env_after (run_routine r) s2 e.
Proof.
  intros r s1 s2 e Hsame s1' s2'.
  pose proof (same_but_delay_with_delay s1 s2 Hsame) as H2.
  pose proof (delay_blind_routine r (delay s2) s1 e) as Hb2.
  pose proof (delay_blind_routine r (delay s1) s1 e) as Hb1.
  assert (Hid : with_delay (delay s1) s1 = s1) by (destruct s1; reflexivity).
  rewrite Hid in Hb1. rewrite <- H2 in Hb2.
  assert (E2 : s2' = with_delay (delay s2) s1').
  { unfold s2', s1', fsm_after, run. rewrite Hb2. reflexivity. }
  assert (E1 : s1' = with_delay (delay s1) s1').
  { unfold s1', fsm_after, run. rewrite Hb1 at 1. reflexivity. }
  destruct (history_grows_routine r s1 e) as [appended Happ].
  fold s1' in Happ.
  destruct Hsame as (Hc & Hh & He & Hhist & Hm).
  rewrite E2. cbn [with_delay currentState moveCount errorCount stateHistory delay].
  repeat split; try reflexivity.
  - exists appended. split; [exact Happ | now rewrite <- Hhist].
  - rewrite E1. reflexivity.
  - unfold env_after, run. rewrite Hb2. reflexivity.
Qed.

(* ===================================================================== *)
(** ** The error counter across the public interface *)
(* ===================================================================== *)

Lemma update_errorCount (s : FSM) (e : Env) :
  below_max_or_stopped s ->
  errorCount s <= errorCount (fsm_after update s e)
  /\ below_max_or_stopped (fsm_after update s e).
Proof.
  unfold below_max_or_stopped, fsm_after, run. intros H.
  rewrite update_eq. destruct (currentState s) eqn:Hcs;
    try (destruct H as [H|H]; [|discriminate H]).
  - rewrite performInit_eq. cbn. split; [lia | now left].
  - rewrite performProcess_eq.
    destruct (command_target (next_command e)); cbn; (split; [lia | now left]).
  - rewrite performMovement_eq. cbn. split; [lia | now left].
  - rewrite performShooting_eq. cbn. split; [lia | now left].
  - rewrite performCalculation_eq. cbn. split; [lia | now left].
  - rewrite performErrorHandling_eq.
    cbn [fst snd transitioned with_errorCount errorCount currentState].
    split; [now apply int_incr_ge|].
    pose proof (to_int_range (errorCount s + 1)) as Hr. fold (int_incr (errorCount s)) in Hr.
    destruct (Z.ltb_spec 3 (int_incr (errorCount s))); [now right|].
    left. unfold INT_MAX in *. lia.
  - rewrite shutdown_eq. cbn [fst snd]. split; [lia | now right].
Qed.

Lemma start_loop_errorCount (fuel : nat) :
  forall (s : FSM) (e : Env),
    below_max_or_stopped s ->
    errorCount s <= errorCount (fsm_after (start_loop fuel) s e).
Proof.
  induction fuel as [|fuel IH]; intros s e H;
    assert (Hloop := start_loop_eq).
  - unfold fsm_after, run. rewrite Hloop.
    destruct (SystemState_eqb (currentState s) STOPPED); cbn [fst snd]; lia.
  - destruct (SystemState_eqb (currentState s) STOPPED) eqn:Hstop.
    + unfold fsm_after, run. rewrite Hloop, Hstop. cbn [fst snd]. lia.
    + assert (Hstep : fsm_after (start_loop (S fuel)) s e
                      = fsm_after (update ;; start_loop fuel) s e).
      { unfold fsm_after, run. now rewrite Hloop, Hstop. }
      rewrite Hstep, fsm_after_bind.
      destruct (update_errorCount s e H) as [Hle Hinv].
      specialize (IH (fsm_after update s e) (env_after update s e) Hinv).
      lia.
Qed.

Lemma fsm_after_drop_value {A B} (m : M A) (b : B) (s : FSM) (e : Env) :
  fsm_after (m ;; ret b) s e = fsm_after m s e.
Proof.
  unfold fsm_after, run. rewrite bind_eq. reflexivity.
Qed.

Lemma start_errorCount (fuel : nat) (s : FSM) (e : Env) :
  errorCount s < INT_MAX ->
  errorCount s <= errorCount (fsm_after (start fuel) s e).
Proof.
  intros H. unfold start. rewrite fsm_after_bind.
  set (s1 := fsm_after performInit s e). set (e1 := env_after performInit s e).
  assert (H1 : errorCount s1 = errorCount s).
  { unfold s1. destruct (performInit_keeps_delay s e) as [-> _]. reflexivity. }
  rewrite fsm_after_bind.
  assert (Hloop : errorCount s1 <= errorCount (fsm_after (start_loop fuel) s1 e1)).
  { apply start_loop_errorCount. left. lia. }
  set (s2 := fsm_after (start_loop fuel) s1 e1) in *.
  set (e2 := env_after (start_loop fuel) s1 e1).
  destruct (value_of (start_loop fuel) s1 e1).
  - rewrite fsm_after_drop_value.
    assert (Hs : fsm_after shutdown s2 e2 = s2).
    { unfold fsm_after, run. now rewrite shutdown_eq. }
    rewrite Hs. lia.
  - change (fsm_after (ret false) s2 e2) with s2. lia.
Qed.

(** C7, as claimed, fails: [setErrorCount] stores whatever it is given.
    An engine that has counted one error is back at 0 after
    [setErrorCount(0)]. *)
Lemma setErrorCount_lowers_errorCount :
  errorCount engine_after_one_error = 1
  /\ errorCount (fsm_after (perform (Op_setErrorCount 0))
                   engine_after_one_error (console [])) = 0
  /\ ~ errorCount_never_decreases.
Proof.
  split; [reflexivity|]. split; [reflexivity|].
  intros H.
  specialize (H (Op_setErrorCount 0) engine_after_one_error (console [])).
  vm_compute in H. apply H. reflexivity.
Qed.

(** C7, amended.  Every public operation other than [setErrorCount], run
    on an engine whose [errorCount] is below [INT_MAX], leaves [errorCount]
    at least as large as it was; [setErrorCount count] overwrites it with
    [count]. *)
Theorem errorCount_monotone_except_setter :
  forall (op : Operation) (s : FSM) (e : Env),
    is_setErrorCount op = false ->
    errorCount s < INT_MAX ->
    errorCount s <= errorCount (fsm_after (perform op) s e)
    /\ (forall count : Z,
          errorCount (fsm_after (perform (Op_setErrorCount count)) s e) = count).
Proof.
  intros op s e Hop Hmax. split; [|intros count; reflexivity].
  destruct op; cbn [perform]; try discriminate Hop.
  - (* getCurrentState *) apply Z.le_refl.
  - (* transitionToState *) apply Z.le_refl.
  - (* setDelay *) apply Z.le_refl.
  - (* getDelay *) apply Z.le_refl.
  - (* getErrorCount *) apply Z.le_refl.
  - (* setMoveCount *) apply Z.le_refl.
  - (* getMoveCount *) apply Z.le_refl.
  - (* addStateToHistory *) apply Z.le_refl.
  - (* getStateHistory *) apply Z.le_refl.
  - (* getLastHeartbeat *) apply Z.le_refl.
  - (* setLastHeartbeat *) apply Z.le_refl.
  - (* start *)
    rewrite fsm_after_drop_value. now apply start_errorCount.
  - (* update *)
    apply update_errorCount. now left.
  - (* printStatus *)
    unfold fsm_after, run. rewrite printStatus_eq. apply Z.le_refl.
  - (* printStateHistory *)
    unfold fsm_after, run. rewrite printStateHistory_eq. apply Z.le_refl.
  - (* performInit *)
    unfold fsm_after, run. rewrite performInit_eq. apply Z.le_refl.
  - (* performProcess *)
    unfold fsm_after, run. rewrite performProcess_eq.
    destruct (command_target (next_command e)); apply Z.le_refl.
  - (* performMovement *)
    unfold fsm_after, run. rewrite performMovement_eq. apply Z.le_refl.
  - (* performShooting *)
    unfold fsm_after, run. rewrite performShooting_eq. apply Z.le_refl.
  - (* performCalculation *)
    unfold fsm_after, run. rewrite performCalculation_eq. apply Z.le_refl.
  - (* performErrorHandling *)
    unfold fsm_after, run. rewrite performErrorHandling_eq.
    cbn [fst snd transitioned with_errorCount errorCount].
    now apply int_incr_ge.
  - (* shutdown *)
    unfold fsm_after, run. rewrite shutdown_eq. apply Z.le_refl.
Qed.

Lemma errorCount_monotone_except_setter_witness :
  is_setErrorCount Op_performErrorHandling = false
  /\ errorCount engine_after_one_error < INT_MAX
  /\ errorCount engine_after_one_error
     <= errorCount (fsm_after (perform Op_performErrorHandling)
                      engine_after_one_error (console [])).
Proof.
  split; [reflexivity|]. split; [reflexivity|].
  apply (errorCount_monotone_except_setter Op_performErrorHandling
           engine_after_one_error (console []) eq_refl eq_refl).
Defined.

(* ===================================================================== *)
(** ** The history stays in step under every driver of the engine *)
(* ===================================================================== *)

Lemma env_after_bind {A B} (m : M A) (k : A -> M B) (s : FSM) (e : Env) :
  env_after (bind m k) s e
  = env_after (k (value_of m s e)) (fsm_after m s e) (env_after m s e).
Proof. unfold env_after at 1 2. now rewrite run_bind. Qed.

Lemma keeps_in_step_bind {A B} (m : M A) (k : A -> M B) :
  keeps_in_step m -> (forall a, keeps_in_step (k a)) -> keeps_in_step (bind m k).
Proof.
  intros Hm Hk s e Hs. rewrite fsm_after_bind, env_after_bind.
  destruct (Hm s e Hs) as [H1 L1].
  destruct (Hk (value_of m s e) (fsm_after m s e) (env_after m s e) H1) as [H2 L2].
  split; [exact H2 | lia].
Qed.

Lemma keeps_in_step_ret {A} (a : A) : keeps_in_step (ret a).
Proof. intros s e Hs. split; [exact Hs | reflexivity]. Qed.

(** A call that leaves the object as [transitionToState target] would and
    reads the clock once. *)
Lemma in_step_transitioned (target : SystemState) (s : FSM) (e e' : Env) (s0 : FSM) :
  stateHistory s0 = stateHistory s ->
  clock_reads e' = clock_reads e ->
  last_entry_agrees (transitioned target (now_ms e) s0)
  /\ (List.length (stateHistory (transitioned target (now_ms e) s0)) + clock_reads e
      = List.length (stateHistory s) + clock_reads (ticked e'))%nat.
Proof.
  intros Hh Hc. split.
  - apply last_state_app.
  - cbn [transitioned stateHistory ticked clock_reads].
    rewrite length_app, Hh, Hc. cbn. lia.
Qed.

Lemma keeps_in_step_transitionToState (target : SystemState) :
  keeps_in_step (transitionToState target).
Proof.
  intros s e _. unfold fsm_after, env_after, run.
  rewrite transitionToState_eq. now apply in_step_transitioned.
Qed.

Lemma keeps_in_step_shutdown : keeps_in_step shutdown.
Proof.
  intros s e Hs. unfold fsm_after, env_after, run. rewrite shutdown_eq.
  split; [exact Hs | reflexivity].
Qed.

Lemma keeps_in_step_performInit : keeps_in_step performInit.
Proof.
  intros s e _. unfold fsm_after, env_after, run. rewrite performInit_eq.
  now apply in_step_transitioned.
Qed.

Lemma keeps_in_step_performProcess : keeps_in_step performProcess.
Proof.
  intros s e Hs. unfold fsm_after, env_after, run. rewrite performProcess_eq.
  destruct (command_target (next_command e)); cbn [fst snd].
  - now apply in_step_transitioned.
  - split; [exact Hs | reflexivity].
Qed.

Lemma keeps_in_step_performMovement : keeps_in_step performMovement.
Proof.
  intros s e _. unfold fsm_after, env_after, run. rewrite performMovement_eq.
  now apply in_step_transitioned.
Qed.

Lemma keeps_in_step_performShooting : keeps_in_step performShooting.
Proof.
  intros s e _. unfold fsm_after, env_after, run. rewrite performShooting_eq.
  now apply in_step_transitioned.
Qed.

Lemma keeps_in_step_performCalculation : keeps_in_step performCalculation.
Proof.
  intros s e _. unfold fsm_after, env_after, run. rewrite performCalculation_eq.
  now apply in_step_transitioned.
Qed.

Lemma keeps_in_step_performErrorHandling : keeps_in_step performErrorHandling.
Proof.
  intros s e _. unfold fsm_after, env_after, run. rewrite performErrorHandling_eq.
  now apply in_step_transitioned.
Qed.

Lemma keeps_in_step_update : keeps_in_step update.
Proof.
  intros s e Hs.
  assert (E : run update s e
              = run match currentState s with
                    | INIT => performInit | IDLE => performProcess
                    | MOVEMENT => performMovement | SHOOTING => performShooting
                    | CALCULATION => performCalculation
                    | ERROR => performErrorHandling | STOPPED => shutdown
                    end s e).
  { unfold run. rewrite update_eq. destruct (currentState s); reflexivity. }
  unfold fsm_after, env_after. rewrite E.
  destruct (currentState s).
  - exact (keeps_in_step_performInit s e Hs).
  - exact (keeps_in_step_performProcess s e Hs).
  - exact (keeps_in_step_performMovement s e Hs).
  - exact (keeps_in_step_performShooting s e Hs).
  - exact (keeps_in_step_performCalculation s e Hs).
  - exact (keeps_in_step_performErrorHandling s e Hs).
  - exact (keeps_in_step_shutdown s e Hs).
Qed.

Lemma keeps_in_step_start_loop (fuel : nat) : keeps_in_step (start_loop fuel).
Proof.
  induction fuel as [|fuel IH]; intros s e Hs;
    unfold fsm_after, env_after, run; rewrite start_loop_eq;
    destruct (SystemState_eqb (currentState s) STOPPED);
    try (split; [exact Hs | reflexivity]).
  apply (keeps_in_step_bind update (fun _ => start_loop fuel));
    [apply keeps_in_step_update | intros _; exact IH | exact Hs].
Qed.

Lemma keeps_in_step_start (fuel : nat) : keeps_in_step (start fuel).
Proof.
  unfold start.
  apply keeps_in_step_bind; [apply keeps_in_step_performInit | intros _].
  apply keeps_in_step_bind; [apply keeps_in_step_start_loop | intros [|]].
  - apply keeps_in_step_bind; [apply keeps_in_step_shutdown | intros _].
    apply keeps_in_step_ret.
  - apply keeps_in_step_ret.
Qed.

(** Every public operation but [addStateToHistory] keeps the history in
    step: whatever mix of handlers, [update]s and [start] drives the engine,
    the last entry names the current state and the history has one entry per
    [transitionToState] call made so far, on top of what it held. *)
Lemma operations_keep_in_step (op : Operation) :
  is_addStateToHistory op = false -> keeps_in_step (perform op).
Proof.
  intros Hop.
  assert (Hframe : forall (A : Type) (m : M A),
            (forall s e, fsm_after m s e = s /\ clock_reads (env_after m s e) = clock_reads e) ->
            keeps_in_step m).
  { intros A m Hm s e Hs. destruct (Hm s e) as [-> ->]. split; [exact Hs | reflexivity]. }
  assert (Hfield : forall f : FSM -> FSM,
            (forall s, currentState (f s) = currentState s
                       /\ stateHistory (f s) = stateHistory s) ->
            keeps_in_step (update_this f)).
  { intros f Hf s e Hs. destruct (Hf s) as [Hc Hh]. unfold last_entry_agrees.
    cbn. rewrite Hc, Hh. split; [exact Hs | reflexivity]. }
  destruct op; cbn [perform]; try discriminate Hop.
  - (* getCurrentState *) apply Hframe; intros; split; reflexivity.
  - (* transitionToState *) apply keeps_in_step_transitionToState.
  - (* setDelay *) apply Hfield; intros; split; reflexivity.
  - (* getDelay *) apply Hframe; intros; split; reflexivity.
  - (* setErrorCount *) apply Hfield; intros; split; reflexivity.
  - (* getErrorCount *) apply Hframe; intros; split; reflexivity.
  - (* setMoveCount *) apply Hfield; intros; split; reflexivity.
  - (* getMoveCount *) apply Hframe; intros; split; reflexivity.
  - (* getStateHistory *) apply Hframe; intros; split; reflexivity.
  - (* getLastHeartbeat *) apply Hframe; intros; split; reflexivity.
  - (* setLastHeartbeat *) apply Hfield; intros; split; reflexivity.
  - (* start *)
    apply keeps_in_step_bind; [apply keeps_in_step_start | intros _; apply keeps_in_step_ret].
  - (* update *) apply keeps_in_step_update.
  - (* printStatus *)
    apply Hframe; intros s e. unfold fsm_after, env_after, run.
    rewrite printStatus_eq. split; reflexivity.
  - (* printStateHistory *)
    apply Hframe; intros s e. unfold fsm_after, env_after, run.
    rewrite printStateHistory_eq. split; reflexivity.
  - apply keeps_in_step_performInit.
  - apply keeps_in_step_performProcess.
  - apply keeps_in_step_performMovement.
  - apply keeps_in_step_performShooting.
  - apply keeps_in_step_performCalculation.
  - apply keeps_in_step_performErrorHandling.
  - apply keeps_in_step_shutdown.
Qed.

(* ===================================================================== *)
(** ** Sample runs *)
(* ===================================================================== *)

(** A fresh engine after [performInit]. *)
Example run_fresh_init :
  currentState idle_engine = IDLE
  /\ stateHistory idle_engine = [(INIT, 0); (IDLE, 0)].
Proof. split; reflexivity. Qed.

(** Three move commands in a row: the third Movement action goes to
    [SHOOTING], and the Shooting action resets the count. *)
Example run_three_moves :
  let e := console [2; 2; 2] in
  map currentState
      [ fsm_after (updates 2) idle_engine e; fsm_after (updates 4) idle_engine e;
        fsm_after (updates 6) idle_engine e; fsm_after (updates 7) idle_engine e ]
  = [IDLE; IDLE; SHOOTING; IDLE]
  /\ moveCount (fsm_after (updates 6) idle_engine e) = 3
  /\ moveCount (fsm_after (updates 7) idle_engine e) = 0.
Proof. vm_compute. repeat split. Qed.

(** Four invalid commands: [start] leaves its loop, stopped, with four
    errors counted and the whole run in the history. *)
Example run_four_errors :
  value_of (start 20) FSM_default (console [9; 9; 9; 9]) = true
  /\ currentState (fsm_after (start 20) FSM_default (console [9; 9; 9; 9])) = STOPPED
  /\ errorCount (fsm_after (start 20) FSM_default (console [9; 9; 9; 9])) = 4
  /\ map fst (stateHistory (fsm_after (start 20) FSM_default (console [9; 9; 9; 9])))
     = [INIT; IDLE; ERROR; IDLE; ERROR; IDLE; ERROR; IDLE; ERROR; STOPPED].
Proof. vm_compute. repeat split. Qed.

(** The machine increment at the top of the range, where C++ leaves the
    result open: the model wraps. *)
Example run_int_incr_at_max : int_incr INT_MAX = INT_MIN.
Proof. reflexivity. Qed.

(* ===================================================================== *)
(** ** Shooting, and what follows it *)
(* ===================================================================== *)

Lemma fsm_after_step {A} (m : M A) (s s' : FSM) (e e' : Env) (a : A) :
  m (s, e) = (a, (s', e')) -> fsm_after m s e = s' /\ env_after m s e = e'.
Proof. unfold fsm_after, env_after, run. intros ->. split; reflexivity. Qed.

(** X1.  [performShooting] clears [moveCount] whatever it held, goes to
    [IDLE] with one new history entry and leaves [errorCount] alone.  So a
    Calculation right after a Shooting always ends in [ERROR], and the
    engine needs three more Movement actions before it shoots again: the
    first two go back to [IDLE]. *)
Theorem shooting_starts_a_new_round :
  forall (s : FSM) (e : Env),
    let s' := fsm_after performShooting s e in
    moveCount s' = 0
    /\ currentState s' = IDLE
    /\ errorCount s' = errorCount s
    /\ stateHistory s' = stateHistory s ++ [(IDLE, now_ms e)]
    /\ currentState (fsm_after (performShooting ;; performCalculation) s e) = ERROR
    /\ currentState (fsm_after (performShooting ;; performMovement) s e) = IDLE
    /\ currentState
         (fsm_after (performShooting ;; performMovement ;; performMovement) s e)
       = IDLE
    /\ currentState
         (fsm_after (performShooting ;; performMovement ;; performMovement ;;
                     performMovement) s e)
       = SHOOTING.
Proof.
  intros s e s'. unfold s'.
  destruct (fsm_after_step _ _ _ _ _ _ (performShooting_eq s e)) as [Hs He].
  rewrite Hs. do 4 (split; [reflexivity|]).
  unfold fsm_after, run.
  repeat (rewrite bind_eq; cbn [fst snd]).
  rewrite performShooting_eq; cbn [fst snd].
  rewrite performCalculation_eq; cbn [fst snd].
  split; [reflexivity|].
  repeat (rewrite performMovement_eq; cbn [fst snd]).
  repeat split.
Qed.

(* ===================================================================== *)
(** ** Looking does not touch *)
(* ===================================================================== *)

(** X2.  The getters, [printStatus], [printStateHistory] and [shutdown]
    leave every field of the object as it was, read neither the clock nor
    the console input, and only add to the output; what they add depends on
    the object alone, not on the environment. *)
Theorem queries_are_read_only :
  forall (op : Operation) (s : FSM),
    is_query op = true ->
    exists out : list Out,
      forall e : Env,
        fsm_after (perform op) s e = s
        /\ env_after (perform op) s e = printed out e.
Proof.
  intros op s Hq.
  assert (Hnil : forall e : Env, e = printed [] e).
  { intros [c k i j o]. unfold printed; cbn. now rewrite app_nil_r. }
  destruct op; try discriminate Hq; cbn [perform].
  - exists []. intros e. split; [reflexivity | apply Hnil].
  - exists []. intros e. split; [reflexivity | apply Hnil].
  - exists []. intros e. split; [reflexivity | apply Hnil].
  - exists []. intros e. split; [reflexivity | apply Hnil].
  - exists []. intros e. split; [reflexivity | apply Hnil].
  - exists []. intros e. split; [reflexivity | apply Hnil].
  - exists (status_out s). intros e.
    exact (fsm_after_step _ _ _ _ _ _ (printStatus_eq s e)).
  - exists (history_out s). intros e.
    exact (fsm_after_step _ _ _ _ _ _ (printStateHistory_eq s e)).
  - exists ([OStr "Shutting down..."; OEndl] ++ history_out s). intros e.
    exact (fsm_after_step _ _ _ _ _ _ (shutdown_eq s e)).
Qed.

Lemma queries_are_read_only_witness :
  is_query Op_printStateHistory = true
  /\ exists out : list Out,
       forall e : Env,
         fsm_after (perform Op_printStateHistory) stopped_engine e = stopped_engine
         /\ env_after (perform Op_printStateHistory) stopped_engine e = printed out e.
Proof.
  split; [reflexivity|].
  apply (queries_are_read_only Op_printStateHistory stopped_engine eq_refl).
Defined.

(* ===================================================================== *)
(** ** Setters and getters *)
(* ===================================================================== *)

(** X3.  Each setter changes the one field it names and nothing else that
    a getter can see: reading everything back after [setDelay],
    [setErrorCount], [setMoveCount] or [setLastHeartbeat] gives the old
    observations with just that component replaced by the argument.  None
    of them touches the environment. *)
Theorem setters_write_one_field :
  forall (s : FSM) (e : Env) (v : Z),
    let '(cs, hb, d, ec, mc, h) := value_of observe s e in
    value_of (setDelay v ;; observe) s e = (cs, hb, v, ec, mc, h)
    /\ value_of (setErrorCount v ;; observe) s e = (cs, hb, d, v, mc, h)
    /\ value_of (setMoveCount v ;; observe) s e = (cs, hb, d, ec, v, h)
    /\ value_of (setLastHeartbeat v ;; observe) s e = (cs, v, d, ec, mc, h)
    /\ env_after (setDelay v) s e = e
    /\ env_after (setErrorCount v) s e = e
    /\ env_after (setMoveCount v) s e = e
    /\ env_after (setLastHeartbeat v) s e = e.
Proof.
  intros s e v. cbn. repeat split.
Qed.

(* ===================================================================== *)
(** ** The history only grows *)
(* ===================================================================== *)

Lemma history_grows_frame {A} (m : M A) :
  (forall s e, stateHistory (fsm_after m s e) = stateHistory s) -> history_grows m.
Proof. intros H s e. exists []. now rewrite H, app_nil_r. Qed.

Lemma history_grows_perform (op : Operation) : history_grows (perform op).
Proof.
  destruct op; cbn [perform].
  - apply history_grows_frame; reflexivity.
  - intros s e. eexists; reflexivity.
  - apply history_grows_frame; reflexivity.
  - apply history_grows_frame; reflexivity.
  - apply history_grows_frame; reflexivity.
  - apply history_grows_frame; reflexivity.
  - apply history_grows_frame; reflexivity.
  - apply history_grows_frame; reflexivity.
  - intros s e. eexists; reflexivity.
  - apply history_grows_frame; reflexivity.
  - apply history_grows_frame; reflexivity.
  - apply history_grows_frame; reflexivity.
  - apply (history_grows_routine (R_start fuel)).
  - apply (history_grows_routine R_update).
  - apply history_grows_frame. intros s e. unfold fsm_after, run.
    now rewrite printStatus_eq.
  - apply history_grows_frame. intros s e. unfold fsm_after, run.
    now rewrite printStateHistory_eq.
  - apply (history_grows_routine R_performInit).
  - apply (history_grows_routine R_performProcess).
  - apply (history_grows_routine R_performMovement).
  - apply (history_grows_routine R_performShooting).
  - apply (history_grows_routine R_performCalculation).
  - apply (history_grows_routine R_performErrorHandling).
  - apply (history_grows_routine R_shutdown).
Qed.

(** X4.  No sequence of public calls, whatever their order and arguments
    ([addStateToHistory], the setters and [start] included), ever removes,
    changes or reorders a history entry: the history before is a prefix of
    the history after, and the history never gets shorter. *)
Theorem history_is_append_only :
  forall (ops : list Operation) (s : FSM) (e : Env),
    let s' := fsm_after (perform_all ops) s e in
    (exists appended, stateHistory s' = stateHistory s ++ appended)
    /\ firstn (List.length (stateHistory s)) (stateHistory s') = stateHistory s
    /\ (List.length (stateHistory s) <= List.length (stateHistory s'))%nat.
Proof.
  intros ops s e s'.
  assert (H : exists appended, stateHistory s' = stateHistory s ++ appended).
  { assert (Hg : history_grows (perform_all ops)).
    { induction ops as [|op rest IH]; cbn [perform_all].
      - apply history_grows_ret.
      - apply history_grows_bind; [apply history_grows_perform | intros _; exact IH]. }
    exact (Hg s e). }
  split; [exact H|]. destruct H as [appended ->]. split.
  - rewrite firstn_app, Nat.sub_diag, firstn_all. cbn. now rewrite app_nil_r.
  - rewrite length_app. lia.
Qed.

(* ===================================================================== *)
(** ** One [update], one step *)
(* ===================================================================== *)

Lemma command_target_none (cmd : Z) : command_target cmd = None -> cmd = 1.
Proof.
  destruct cmd as [|p|p]; try discriminate.
  destruct p as [[[p|p|]|[p|p|]|]|[[p|p|]|[p|p|]|]|]; try discriminate.
  reflexivity.
Qed.

(** What one [update] does to the object and to the counters of the
    environment, state by state. *)
Lemma update_cases (s : FSM) (e : Env) :
  let s' := fsm_after update s e in
  let e' := env_after update s e in
  (currentState s = STOPPED \/ (currentState s = IDLE /\ next_command e = 1)) /\
    s' = s /\ clock_reads e' = clock_reads e
  \/
  ~ (currentState s = STOPPED \/ (currentState s = IDLE /\ next_command e = 1)) /\
    stateHistory s' = stateHistory s ++ [(currentState s', lastHeartbeat s')] /\
    lastHeartbeat s' = now_ms e /\
    clock_reads e' = S (clock_reads e).
Proof.
  cbn zeta. unfold fsm_after, env_after, run. rewrite update_eq.
  destruct (currentState s) eqn:Hcs.
  - right. rewrite performInit_eq. cbn. repeat split.
    intros [H|[H _]]; discriminate H.
  - rewrite performProcess_eq.
    destruct (Z.eq_dec (next_command e) 1) as [E|NE].
    + left. rewrite E. cbn. repeat split. right. split; reflexivity.
    + right.
      assert (Ht : exists t, command_target (next_command e) = Some t).
      { destruct (command_target (next_command e)) eqn:Ec; [eexists; reflexivity|].
        exfalso. apply NE. now apply command_target_none. }
      destruct Ht as [t ->]. cbn. repeat split.
      intros [H|[_ H]]; [discriminate H | exact (NE H)].
  - right. rewrite performMovement_eq. cbn. repeat split.
    intros [H|[H _]]; discriminate H.
  - right. rewrite performShooting_eq. cbn. repeat split.
    intros [H|[H _]]; discriminate H.
  - right. rewrite performCalculation_eq. cbn. repeat split.
    intros [H|[H _]]; discriminate H.
  - right. rewrite performErrorHandling_eq. cbn. repeat split.
    intros [H|[H _]]; discriminate H.
  - left. rewrite shutdown_eq. cbn. repeat split. left. reflexivity.
Qed.

(** X5.  One call of [update] appends at most one history entry.  It
    appends none exactly when the engine is [STOPPED], or is [IDLE] and the
    command read is 1; then the object is unchanged and the clock is not
    read.  Otherwise it appends exactly the entry (new current state, new
    heartbeat), reading the clock once. *)
Theorem update_appends_at_most_one_entry :
  forall (s : FSM) (e : Env),
    let s' := fsm_after update s e in
    let e' := env_after update s e in
    let quiet := currentState s = STOPPED
                 \/ (currentState s = IDLE /\ next_command e = 1) in
    (List.length (stateHistory s') <= S (List.length (stateHistory s)))%nat
    /\ (quiet <-> stateHistory s' = stateHistory s)
    /\ (quiet -> s' = s /\ clock_reads e' = clock_reads e)
    /\ (~ quiet ->
        stateHistory s' = stateHistory s ++ [(currentState s', lastHeartbeat s')]
        /\ lastHeartbeat s' = now_ms e
        /\ clock_reads e' = S (clock_reads e)).
Proof.
  intros s e s' e' quiet.
  destruct (update_cases s e) as [(Hq & Hs & Hc) | (Hq & Hh & Hb & Hc)];
    fold s' in Hs || fold s' in Hh; fold e' in Hc; fold quiet in Hq.
  - rewrite Hs. repeat split; auto; try (intros; contradiction).
  - try fold s' in Hb. split; [rewrite Hh, length_app; cbn; lia|].
    split; [|split; [intros; contradiction | intros _; auto]].
    split; [intros; contradiction|].
    intros Heq. rewrite Heq in Hh at 1.
    apply (f_equal (@List.length _)) in Hh. rewrite length_app in Hh. cbn in Hh. lia.
Qed.

Lemma update_appends_at_most_one_entry_witness :
  ~ (currentState idle_engine = STOPPED
     \/ (currentState idle_engine = IDLE /\ next_command (console [4]) = 1))
  /\ stateHistory (fsm_after update idle_engine (console [4]))
     = stateHistory idle_engine ++ [(CALCULATION, 0)].
Proof.
  assert (Hq : ~ (currentState idle_engine = STOPPED
                  \/ (currentState idle_engine = IDLE
                      /\ next_command (console [4]) = 1))).
  { intros [H|[_ H]]; discriminate H. }
  split; [exact Hq|].
  destruct (update_appends_at_most_one_entry idle_engine (console [4]))
    as (_ & _ & _ & Hstep).
  destruct (Hstep Hq) as (Hh & _ & _). exact Hh.
Defined.

(** X6.  One [update] moves along the edges of a fixed graph: [INIT] to
    [IDLE]; [IDLE] to any state but [INIT]; [MOVEMENT] to [SHOOTING] or
    [IDLE]; [SHOOTING] to [IDLE]; [CALCULATION] to [ERROR] or [IDLE];
    [ERROR] to [STOPPED] or [IDLE]; [STOPPED] to itself.  In particular no
    [update] ever leads to [INIT].  Every edge of the graph is taken by
    some engine state and input. *)
Theorem update_follows_the_graph :
  (forall (s : FSM) (e : Env),
     In (currentState (fsm_after update s e)) (successors (currentState s))
     /\ currentState (fsm_after update s e) <> INIT)
  /\ (forall from to : SystemState,
        In to (successors from) ->
        exists (s : FSM) (e : Env),
          currentState s = from /\ currentState (fsm_after update s e) = to).
Proof.
  split.
  - intros s e. unfold fsm_after, run. rewrite update_eq.
    destruct (currentState s) eqn:Hcs.
    + rewrite performInit_eq. cbn. split; [tauto | discriminate].
    + rewrite performProcess_eq.
      destruct (command_target (next_command e)) as [t|] eqn:Ht; cbn [fst snd].
      * cbn [transitioned currentState].
        assert (Hin : In t [MOVEMENT; SHOOTING; CALCULATION; STOPPED; ERROR]).
        { revert Ht. destruct (next_command e) as [|p|p]; cbn.
          - intros [= <-]; tauto.
          - destruct p as [[[p|p|]|[p|p|]|]|[[p|p|]|[p|p|]|]|]; cbn;
              intros [= <-]; tauto.
          - intros [= <-]; tauto. }
        split; [cbn; cbn in Hin; tauto|].
        intros ->. cbn in Hin. intuition discriminate.
      * rewrite Hcs. split; [cbn; tauto | discriminate].
    + rewrite performMovement_eq. cbn [fst snd transitioned currentState].
      destruct (3 <=? _); (split; [cbn; tauto | discriminate]).
    + rewrite performShooting_eq. cbn. split; [tauto | discriminate].
    + rewrite performCalculation_eq. cbn [fst snd transitioned currentState].
      destruct (_ =? 0); (split; [cbn; tauto | discriminate]).
    + rewrite performErrorHandling_eq. cbn [fst snd transitioned currentState].
      destruct (3 <? _); (split; [cbn; tauto | discriminate]).
    + rewrite shutdown_eq. cbn [fst snd]. rewrite Hcs.
      split; [cbn; tauto | discriminate].
  - intros from to Hin.
    destruct from; cbn in Hin;
      repeat match goal with
             | H : _ \/ _ |- _ => destruct H as [H|H]
             | H : False |- _ => destruct H
             end; subst to.
    + exists FSM_default, (console []). split; reflexivity.
    + exists idle_engine, (console [1]). split; reflexivity.
    + exists idle_engine, (console [2]). split; reflexivity.
    + exists idle_engine, (console [3]). split; reflexivity.
    + exists idle_engine, (console [4]). split; reflexivity.
    + exists idle_engine, (console [5]). split; reflexivity.
    + exists idle_engine, (console [9]). split; reflexivity.
    + exists (mkFSM MOVEMENT 0 0 0 [] 2), (console []). split; reflexivity.
    + exists (mkFSM MOVEMENT 0 0 0 [] 0), (console []). split; reflexivity.
    + exists (mkFSM SHOOTING 0 0 0 [] 0), (console []). split; reflexivity.
    + exists (mkFSM CALCULATION 0 0 0 [] 0), (console []). split; reflexivity.
    + exists (mkFSM CALCULATION 0 0 0 [] 1), (console []). split; reflexivity.
    + exists (mkFSM ERROR 0 0 3 [] 0), (console []). split; reflexivity.
    + exists (mkFSM ERROR 0 0 0 [] 0), (console []). split; reflexivity.
    + exists stopped_engine, (console []). split; reflexivity.
Qed.

Lemma update_follows_the_graph_witness :
  In STOPPED (successors ERROR)
  /\ exists (s : FSM) (e : Env),
       currentState s = ERROR /\ currentState (fsm_after update s e) = STOPPED.
Proof.
  split; [cbn; tauto|].
  apply (proj2 update_follows_the_graph ERROR STOPPED). cbn; tauto.
Defined.

(** X7.  Outside [IDLE], [update] does not read the console: it consumes
    no command, and the object it leaves is the same for any two
    environments that agree on the next clock reading, whatever the
    operator types.  In [IDLE] it consumes exactly one command. *)
Theorem update_reads_input_only_in_idle :
  forall (s : FSM) (e1 e2 : Env),
    (currentState s <> IDLE ->
     cin_reads (env_after update s e1) = cin_reads e1
     /\ (now_ms e1 = now_ms e2 -> fsm_after update s e1 = fsm_after update s e2))
    /\ (currentState s = IDLE ->
        cin_reads (env_after update s e1) = S (cin_reads e1)).
Proof.
  intros s e1 e2. unfold fsm_after, env_after, run. rewrite !update_eq.
  destruct (currentState s) eqn:Hcs; (split; [intros Hn | intros Hi]);
    try discriminate Hi; try (exfalso; apply Hn; reflexivity).
  - rewrite !performInit_eq. cbn. split; [reflexivity | now intros ->].
  - rewrite performProcess_eq. destruct (command_target _); reflexivity.
  - rewrite !performMovement_eq. cbn. split; [reflexivity | now intros ->].
  - rewrite !performShooting_eq. cbn. split; [reflexivity | now intros ->].
  - rewrite !performCalculation_eq. cbn. split; [reflexivity | now intros ->].
  - rewrite !performErrorHandling_eq. cbn. split; [reflexivity | now intros ->].
  - rewrite !shutdown_eq. cbn. split; [reflexivity | reflexivity].
Qed.

Lemma update_reads_input_only_in_idle_witness :
  currentState (mkFSM MOVEMENT 0 0 0 [] 2) <> IDLE
  /\ now_ms (console [1; 2]) = now_ms (console [9])
  /\ fsm_after update (mkFSM MOVEMENT 0 0 0 [] 2) (console [1; 2])
     = fsm_after update (mkFSM MOVEMENT 0 0 0 [] 2) (console [9]).
Proof.
  assert (Hn : currentState (mkFSM MOVEMENT 0 0 0 [] 2) <> IDLE) by discriminate.
  split; [exact Hn|]. split; [reflexivity|].
  destruct (update_reads_input_only_in_idle (mkFSM MOVEMENT 0 0 0 [] 2)
              (console [1; 2]) (console [9])) as [Hout _].
  destruct (Hout Hn) as [_ Hsame]. apply Hsame. reflexivity.
Defined.

(* ===================================================================== *)
(** ** Invariants of the run loop *)
(* ===================================================================== *)

(** Whatever [update] preserves, any number of [update]s preserves, and so
    does the loop of [start]. *)
Lemma updates_preserve (P : FSM -> Prop) :
  (forall s e, P s -> P (fsm_after update s e)) ->
  forall (n : nat) (s : FSM) (e : Env), P s -> P (fsm_after (updates n) s e).
Proof.
  intros Hstep n. induction n as [|n IH]; intros s e Hs.
  - exact Hs.
  - rewrite fsm_after_updates_S. apply IH, Hstep, Hs.
Qed.

Lemma start_loop_preserves (P : FSM -> Prop) :
  (forall s e, P s -> P (fsm_after update s e)) ->
  forall (fuel : nat) (s : FSM) (e : Env),
    P s -> P (fsm_after (start_loop fuel) s e).
Proof.
  intros Hstep fuel. induction fuel as [|fuel IH]; intros s e Hs.
  - unfold fsm_after, run. rewrite start_loop_eq.
    destruct (SystemState_eqb (currentState s) STOPPED); exact Hs.
  - destruct (SystemState_eqb (currentState s) STOPPED) eqn:Hstop.
    + unfold fsm_after, run. rewrite start_loop_eq, Hstop. exact Hs.
    + assert (E : fsm_after (start_loop (S fuel)) s e
                  = fsm_after (update ;; start_loop fuel) s e).
      { unfold fsm_after, run. now rewrite start_loop_eq, Hstop. }
      rewrite E, fsm_after_bind. apply IH, Hstep, Hs.
Qed.

Lemma start_preserves (P : FSM -> Prop) :
  (forall s e, P s -> P (fsm_after update s e)) ->
  forall (fuel : nat) (s : FSM) (e : Env),
    P (fsm_after performInit s e) -> P (fsm_after (start fuel) s e).
Proof.
  intros Hstep fuel s e Hs. unfold start.
  rewrite fsm_after_bind, fsm_after_bind.
  set (s1 := fsm_after performInit s e) in *.
  set (e1 := env_after performInit s e).
  assert (Hloop : P (fsm_after (start_loop fuel) s1 e1))
    by now apply start_loop_preserves.
  destruct (value_of (start_loop fuel) s1 e1).
  - rewrite fsm_after_drop_value.
    destruct (fsm_after_step _ _ _ _ _ _
                (shutdown_eq (fsm_after (start_loop fuel) s1 e1)
                             (env_after (start_loop fuel) s1 e1))) as [-> _].
    exact Hloop.
  - exact Hloop.
Qed.

Lemma update_keeps_counters_in_bounds (s : FSM) (e : Env) :
  counters_in_bounds s -> counters_in_bounds (fsm_after update s e).
Proof.
  unfold counters_in_bounds. intros (Hm & Hm3 & He & He4).
  unfold fsm_after, run. rewrite update_eq.
  destruct (currentState s) eqn:Hcs.
  - rewrite performInit_eq. cbn.
    repeat split; try lia; intros H;
      [apply Hm3 in H | apply He4 in H]; discriminate H.
  - rewrite performProcess_eq.
    assert (Hm2 : moveCount s <> 3) by (intros H; apply Hm3 in H; discriminate H).
    assert (He3 : errorCount s <> 4) by (intros H; apply He4 in H; discriminate H).
    destruct (command_target (next_command e)); cbn;
      repeat split; try lia; intros H; contradiction.
  - rewrite performMovement_eq.
    cbn [fst snd transitioned with_moveCount moveCount errorCount currentState].
    assert (Hm2 : moveCount s <> 3) by (intros H; apply Hm3 in H; discriminate H).
    assert (He3 : errorCount s <> 4) by (intros H; apply He4 in H; discriminate H).
    rewrite int_incr_plus_one by (unfold INT_MIN, INT_MAX; lia).
    destruct (Z.leb_spec 3 (moveCount s + 1));
      repeat split; try lia; intros H; try reflexivity; contradiction.
  - rewrite performShooting_eq. cbn.
    assert (He3 : errorCount s <> 4) by (intros H; apply He4 in H; discriminate H).
    repeat split; try lia; try discriminate; intros H; contradiction.
  - rewrite performCalculation_eq. cbn.
    assert (Hm2 : moveCount s <> 3) by (intros H; apply Hm3 in H; discriminate H).
    assert (He3 : errorCount s <> 4) by (intros H; apply He4 in H; discriminate H).
    repeat split; try lia; intros H; contradiction.
  - rewrite performErrorHandling_eq.
    cbn [fst snd transitioned with_errorCount moveCount errorCount currentState].
    assert (Hm2 : moveCount s <> 3) by (intros H; apply Hm3 in H; discriminate H).
    assert (He3 : errorCount s <> 4) by (intros H; apply He4 in H; discriminate H).
    rewrite int_incr_plus_one by (unfold INT_MIN, INT_MAX; lia).
    destruct (Z.ltb_spec 3 (errorCount s + 1));
      repeat split; try lia; intros H; try reflexivity; try contradiction; lia.
  - rewrite shutdown_eq. cbn [fst snd]. rewrite Hcs. repeat split; auto; lia.
Qed.

(** X8.  Driven by [update] or [start] alone, the counters stay small: an
    engine from either constructor has [moveCount] in [0, 3], equal to 3
    only while it is in [SHOOTING], and [errorCount] in [0, 4], equal to 4
    only once it is [STOPPED]; every [update] keeps it so, hence so do any
    number of [update]s and a whole (or cut-off) run of [start].  The
    counters therefore never come near [INT_MAX] in such a run. *)
Theorem run_loop_keeps_counters_in_bounds :
  forall (d : option Z) (e : Env) (n : nat),
    counters_in_bounds (construct d)
    /\ (forall (s : FSM) (e0 : Env),
          counters_in_bounds s -> counters_in_bounds (fsm_after (updates n) s e0))
    /\ counters_in_bounds (fsm_after (updates n) (construct d) e)
    /\ counters_in_bounds (fsm_after (start n) (construct d) e).
Proof.
  intros d e n.
  assert (H0 : counters_in_bounds (construct d)).
  { destruct d; cbn; unfold counters_in_bounds; cbn;
      repeat split; try lia; discriminate. }
  split; [exact H0|].
  split. { intros s e0. apply updates_preserve, update_keeps_counters_in_bounds. }
  split. { now apply updates_preserve; [apply update_keeps_counters_in_bounds|]. }
  apply start_preserves; [apply update_keeps_counters_in_bounds|].
  destruct (performInit_keeps_delay (construct d) e) as [-> _].
  destruct d; unfold counters_in_bounds; cbn; repeat split; try lia; discriminate.
Qed.

Lemma run_loop_keeps_counters_in_bounds_witness :
  counters_in_bounds idle_engine
  /\ counters_in_bounds (fsm_after (updates 9) idle_engine (console [2; 2; 9; 2; 4])).
Proof.
  assert (H : counters_in_bounds idle_engine).
  { unfold counters_in_bounds; cbn; repeat split; try lia; discriminate. }
  split; [exact H|].
  destruct (run_loop_keeps_counters_in_bounds None (console []) 9) as (_ & Hk & _).
  apply Hk. exact H.
Defined.

(* ===================================================================== *)
(** ** Heartbeat and history *)
(* ===================================================================== *)

Lemma to_uint32_range (z : Z) : 0 <= to_uint32 z < UINT32_MODULUS.
Proof. unfold to_uint32, UINT32_MODULUS. apply Z.mod_pos_bound. lia. Qed.

Lemma heartbeat_agrees_transitioned (target : SystemState) (t : Z) (s : FSM) :
  heartbeat_agrees (transitioned target t s).
Proof. exists (stateHistory s). reflexivity. Qed.

Lemma update_keeps_heartbeat (s : FSM) (e : Env) :
  heartbeat_agrees s -> heartbeat_agrees (fsm_after update s e).
Proof.
  intros Hs.
  destruct (update_cases s e) as [(_ & -> & _) | (_ & Hh & _)]; [exact Hs|].
  eexists. exact Hh.
Qed.

Lemma perform_keeps_heartbeat (op : Operation) (s : FSM) (e : Env) :
  writes_behind_the_engine op = false ->
  heartbeat_agrees s -> heartbeat_agrees (fsm_after (perform op) s e).
Proof.
  intros Hop Hs. destruct op; try discriminate Hop; cbn [perform].
  - exact Hs.
  - apply heartbeat_agrees_transitioned.
  - exact Hs.
  - exact Hs.
  - exact Hs.
  - exact Hs.
  - exact Hs.
  - exact Hs.
  - exact Hs.
  - exact Hs.
  - rewrite fsm_after_drop_value.
    apply (start_preserves heartbeat_agrees);
      [intros; now apply update_keeps_heartbeat|].
    destruct (performInit_keeps_delay s e) as [-> _].
    apply heartbeat_agrees_transitioned.
  - now apply update_keeps_heartbeat.
  - destruct (fsm_after_step _ _ _ _ _ _ (printStatus_eq s e)) as [-> _]. exact Hs.
  - destruct (fsm_after_step _ _ _ _ _ _ (printStateHistory_eq s e)) as [-> _].
    exact Hs.
  - destruct (fsm_after_step _ _ _ _ _ _ (performInit_eq s e)) as [-> _].
    apply heartbeat_agrees_transitioned.
  - unfold fsm_after, run. rewrite performProcess_eq.
    destruct (command_target (next_command e));
      [apply heartbeat_agrees_transitioned | exact Hs].
  - destruct (fsm_after_step _ _ _ _ _ _ (performMovement_eq s e)) as [-> _].
    apply heartbeat_agrees_transitioned.
  - destruct (fsm_after_step _ _ _ _ _ _ (performShooting_eq s e)) as [-> _].
    apply heartbeat_agrees_transitioned.
  - destruct (fsm_after_step _ _ _ _ _ _ (performCalculation_eq s e)) as [-> _].
    apply heartbeat_agrees_transitioned.
  - destruct (fsm_after_step _ _ _ _ _ _ (performErrorHandling_eq s e)) as [-> _].
    apply heartbeat_agrees_transitioned.
  - destruct (fsm_after_step _ _ _ _ _ _ (shutdown_eq s e)) as [-> _]. exact Hs.
Qed.

(** X9.  The heartbeat is the timestamp of the last history entry.  Both
    constructors set it up so; [transitionToState] makes it so from any
    state, with a heartbeat that is a [uint32_t] value (the clock reading
    modulo [2^32]); and any sequence of public calls that contains neither
    [addStateToHistory] nor [setLastHeartbeat] keeps it so. *)
Theorem heartbeat_is_last_timestamp :
  (forall d : option Z, heartbeat_agrees (construct d))
  /\ (forall (target : SystemState) (s : FSM) (e : Env),
        heartbeat_agrees (fsm_after (transitionToState target) s e)
        /\ lastHeartbeat (fsm_after (transitionToState target) s e)
           = steady_clock e (clock_reads e) mod UINT32_MODULUS
        /\ 0 <= lastHeartbeat (fsm_after (transitionToState target) s e)
           < UINT32_MODULUS)
  /\ (forall (ops : list Operation) (s : FSM) (e : Env),
        forallb (fun op => negb (writes_behind_the_engine op)) ops = true ->
        heartbeat_agrees s ->
        heartbeat_agrees (fsm_after (perform_all ops) s e)).
Proof.
  split. { intros [d|]; exists []; reflexivity. }
  split.
  { intros target s e. rewrite fsm_after_transitionToState.
    split; [apply heartbeat_agrees_transitioned|].
    split; [reflexivity | apply to_uint32_range]. }
  intros ops. induction ops as [|op rest IH]; intros s e Hall Hs.
  - exact Hs.
  - cbn [forallb] in Hall. apply andb_prop in Hall. destruct Hall as [Hop Hrest].
    cbn [perform_all]. rewrite fsm_after_bind. apply IH; [exact Hrest|].
    apply perform_keeps_heartbeat; [|exact Hs].
    now destruct (writes_behind_the_engine op).
Qed.

Lemma heartbeat_is_last_timestamp_witness :
  forallb (fun op => negb (writes_behind_the_engine op))
          [Op_start 6; Op_setDelay 5; Op_performMovement] = true
  /\ heartbeat_agrees FSM_default
  /\ heartbeat_agrees
       (fsm_after (perform_all [Op_start 6; Op_setDelay 5; Op_performMovement])
                  FSM_default (console [3; 9])).
Proof.
  assert (H0 : heartbeat_agrees FSM_default) by (exists []; reflexivity).
  split; [reflexivity|]. split; [exact H0|].
  apply (proj2 (proj2 heartbeat_is_last_timestamp)); [reflexivity | exact H0].
Defined.

(* ===================================================================== *)
(** ** Timestamps come from the clock *)
(* ===================================================================== *)

Lemma stamped_quiet (s : FSM) (e : Env) (s' : FSM) (e' : Env) :
  stateHistory s' = stateHistory s ->
  steady_clock e' = steady_clock e ->
  clock_reads e' = clock_reads e ->
  stamped_by_clock s e s' e'.
Proof.
  intros Hh Hc Hr. unfold stamped_by_clock.
  rewrite Hh, Hc, Hr, Nat.sub_diag. cbn. rewrite app_nil_r. auto.
Qed.

Lemma stamped_once (s : FSM) (e : Env) (s' : FSM) (e' : Env) (target : SystemState) :
  stateHistory s' = stateHistory s ++ [(target, now_ms e)] ->
  steady_clock e' = steady_clock e ->
  clock_reads e' = S (clock_reads e) ->
  stamped_by_clock s e s' e'.
Proof.
  intros Hh Hc Hr. unfold stamped_by_clock.
  rewrite Hh, Hc, Hr, map_app.
  replace (S (clock_reads e) - clock_reads e)%nat with 1%nat by lia.
  split; [reflexivity|]. split; [lia|]. reflexivity.
Qed.

Lemma stamped_trans (s : FSM) (e : Env) (s1 : FSM) (e1 : Env) (s2 : FSM) (e2 : Env) :
  stamped_by_clock s e s1 e1 -> stamped_by_clock s1 e1 s2 e2 ->
  stamped_by_clock s e s2 e2.
Proof.
  unfold stamped_by_clock. intros (Hc1 & Hr1 & Hh1) (Hc2 & Hr2 & Hh2).
  split; [congruence|]. split; [lia|].
  rewrite Hh2, Hh1, <- app_assoc. f_equal.
  replace (clock_reads e2 - clock_reads e)%nat
    with ((clock_reads e1 - clock_reads e) + (clock_reads e2 - clock_reads e1))%nat
    by lia.
  rewrite seq_app, map_app.
  replace (clock_reads e + (clock_reads e1 - clock_reads e))%nat
    with (clock_reads e1) by lia.
  f_equal. apply map_ext. intros k. unfold clock_reading. now rewrite Hc1.
Qed.

Lemma stamps_follow_clock_bind {A B} (m : M A) (k : A -> M B) :
  stamps_follow_clock m -> (forall a, stamps_follow_clock (k a)) ->
  stamps_follow_clock (bind m k).
Proof.
  intros Hm Hk s e. rewrite fsm_after_bind, env_after_bind.
  eapply stamped_trans; [apply Hm | apply Hk].
Qed.

Lemma stamps_follow_clock_ret {A} (a : A) : stamps_follow_clock (ret a).
Proof. intros s e. now apply stamped_quiet. Qed.

Lemma stamps_follow_clock_update : stamps_follow_clock update.
Proof.
  intros s e. unfold fsm_after, env_after, run. rewrite update_eq.
  destruct (currentState s).
  - rewrite performInit_eq. now apply (stamped_once _ _ _ _ IDLE).
  - rewrite performProcess_eq. destruct (command_target (next_command e)) as [t|].
    + now apply (stamped_once _ _ _ _ t).
    + now apply stamped_quiet.
  - rewrite performMovement_eq. eapply stamped_once; reflexivity.
  - rewrite performShooting_eq. now apply (stamped_once _ _ _ _ IDLE).
  - rewrite performCalculation_eq. eapply stamped_once; reflexivity.
  - rewrite performErrorHandling_eq. eapply stamped_once; reflexivity.
  - rewrite shutdown_eq. now apply stamped_quiet.
Qed.

Lemma stamps_follow_clock_shutdown : stamps_follow_clock shutdown.
Proof.
  intros s e. unfold fsm_after, env_after, run. rewrite shutdown_eq.
  now apply stamped_quiet.
Qed.

Lemma stamps_follow_clock_start_loop (fuel : nat) :
  stamps_follow_clock (start_loop fuel).
Proof.
  induction fuel as [|fuel IH]; intros s e;
    unfold fsm_after, env_after, run; rewrite start_loop_eq;
    destruct (SystemState_eqb (currentState s) STOPPED);
    try (now apply stamped_quiet).
  apply (stamps_follow_clock_bind update (fun _ => start_loop fuel));
    [apply stamps_follow_clock_update | intros _; exact IH].
Qed.

Lemma stamps_follow_clock_start (fuel : nat) : stamps_follow_clock (start fuel).
Proof.
  unfold start.
  apply stamps_follow_clock_bind.
  { intros s e. unfold fsm_after, env_after, run. rewrite performInit_eq.
    now apply (stamped_once _ _ _ _ IDLE). }
  intros _.
  apply stamps_follow_clock_bind; [apply stamps_follow_clock_start_loop | intros [|]].
  - apply stamps_follow_clock_bind; [apply stamps_follow_clock_shutdown | intros _].
    apply stamps_follow_clock_ret.
  - apply stamps_follow_clock_ret.
Qed.

Lemma stamps_follow_clock_perform (op : Operation) :
  is_addStateToHistory op = false -> stamps_follow_clock (perform op).
Proof.
  intros Hop. destruct op; try discriminate Hop; cbn [perform].
  - intros s e. now apply stamped_quiet.
  - intros s e. now apply (stamped_once _ _ _ _ newState).
  - intros s e. now apply stamped_quiet.
  - intros s e. now apply stamped_quiet.
  - intros s e. now apply stamped_quiet.
  - intros s e. now apply stamped_quiet.
  - intros s e. now apply stamped_quiet.
  - intros s e. now apply stamped_quiet.
  - intros s e. now apply stamped_quiet.
  - intros s e. now apply stamped_quiet.
  - intros s e. now apply stamped_quiet.
  - apply stamps_follow_clock_bind;
      [apply stamps_follow_clock_start | intros _; apply stamps_follow_clock_ret].
  - apply stamps_follow_clock_update.
  - intros s e. unfold fsm_after, env_after, run. rewrite printStatus_eq.
    now apply stamped_quiet.
  - intros s e. unfold fsm_after, env_after, run. rewrite printStateHistory_eq.
    now apply stamped_quiet.
  - intros s e. unfold fsm_after, env_after, run. rewrite performInit_eq.
    now apply (stamped_once _ _ _ _ IDLE).
  - intros s e. unfold fsm_after, env_after, run. rewrite performProcess_eq.
    destruct (command_target (next_command e)) as [t|].
    + now apply (stamped_once _ _ _ _ t).
    + now apply stamped_quiet.
  - intros s e. unfold fsm_after, env_after, run. rewrite performMovement_eq.
    eapply stamped_once; reflexivity.
  - intros s e. unfold fsm_after, env_after, run. rewrite performShooting_eq.
    now apply (stamped_once _ _ _ _ IDLE).
  - intros s e. unfold fsm_after, env_after, run. rewrite performCalculation_eq.
    eapply stamped_once; reflexivity.
  - intros s e. unfold fsm_after, env_after, run. rewrite performErrorHandling_eq.
    eapply stamped_once; reflexivity.
  - apply stamps_follow_clock_shutdown.
Qed.

Lemma readings_sorted (f : nat -> Z) (len : nat) :
  forall start : nat,
    (forall i j : nat, (start <= i)%nat -> (i <= j)%nat -> (j < start + len)%nat ->
                       f i <= f j) ->
    StronglySorted Z.le (map f (seq start len)).
Proof.
  induction len as [|len IH]; intros start Hmono; cbn.
  - constructor.
  - constructor.
    + apply IH. intros i j Hi Hij Hj. apply Hmono; lia.
    + apply Forall_forall. intros x Hx. apply in_map_iff in Hx.
      destruct Hx as (j & <- & Hj). apply in_seq in Hj. apply Hmono; lia.
Qed.

(** X10.  Through any sequence of public calls without
    [addStateToHistory], the timestamps appended to the history are exactly
    the clock readings taken meanwhile, in the order taken, one entry per
    reading.  So as long as the steady clock does not pass [2^32] ms, the
    appended timestamps never go down. *)
Theorem timestamps_are_clock_readings :
  forall (ops : list Operation) (s : FSM) (e : Env),
    forallb (fun op => negb (is_addStateToHistory op)) ops = true ->
    let s' := fsm_after (perform_all ops) s e in
    let e' := env_after (perform_all ops) s e in
    let taken := (clock_reads e' - clock_reads e)%nat in
    map snd (stateHistory s')
    = map snd (stateHistory s) ++ map (clock_reading e) (seq (clock_reads e) taken)
    /\ List.length (stateHistory s') = (List.length (stateHistory s) + taken)%nat
    /\ ((forall i j : nat,
           (clock_reads e <= i)%nat -> (i <= j)%nat -> (j < clock_reads e')%nat ->
           0 <= steady_clock e i <= steady_clock e j
           /\ steady_clock e j < UINT32_MODULUS) ->
        StronglySorted Z.le (map (clock_reading e) (seq (clock_reads e) taken))).
Proof.
  intros ops s e Hall s' e' taken.
  assert (Hst : stamps_follow_clock (perform_all ops)).
  { clear s e s' e' taken. induction ops as [|op rest IH]; cbn [perform_all].
    - apply stamps_follow_clock_ret.
    - cbn [forallb] in Hall. apply andb_prop in Hall. destruct Hall as [Hop Hrest].
      apply stamps_follow_clock_bind.
      + apply stamps_follow_clock_perform. now destruct (is_addStateToHistory op).
      + intros _. now apply IH. }
  destruct (Hst s e) as (Hc & Hr & Hh). fold s' e' in Hc, Hr, Hh. fold taken in Hh.
  split; [exact Hh|]. split.
  - apply (f_equal (@List.length _)) in Hh.
    rewrite length_app, !length_map, length_seq in Hh. exact Hh.
  - intros Hmono. apply readings_sorted. intros i j Hi Hij Hj.
    assert (Hj' : (j < clock_reads e')%nat) by (unfold taken in Hj; lia).
    destruct (Hmono i j Hi Hij Hj') as [[H0 Hle] Hlt].
    unfold clock_reading, to_uint32.
    rewrite !Z.mod_small; lia.
Qed.

Lemma timestamps_are_clock_readings_witness :
  forallb (fun op => negb (is_addStateToHistory op)) [Op_start 6] = true
  /\ map snd (stateHistory (fsm_after (perform_all [Op_start 6]) FSM_default
                              (console [2; 9; 5])))
     = [0; 0; 10; 20; 30; 40; 50]
  /\ StronglySorted Z.le
       (map (clock_reading (console [2; 9; 5]))
            (seq (clock_reads (console [2; 9; 5]))
                 (clock_reads (env_after (perform_all [Op_start 6]) FSM_default
                                 (console [2; 9; 5]))
                  - clock_reads (console [2; 9; 5])))).
Proof.
  split; [reflexivity|].
  destruct (timestamps_are_clock_readings [Op_start 6] FSM_default
              (console [2; 9; 5]) eq_refl) as (Hh & _ & Hsorted).
  split; [rewrite Hh; reflexivity|].
  apply Hsorted. intros i j Hi Hij Hj. vm_compute in Hj.
  cbn [console steady_clock]. unfold UINT32_MODULUS. lia.
Defined.

(** Past [2^32] ms the [uint32_t] heartbeat starts again from 0, and the
    timestamps in the history go down. *)
Example run_clock_wraps :
  map snd (stateHistory
             (fsm_after (updates 2) FSM_default
                (mkEnv (fun k => 4294967290 + 10 * Z.of_nat k) 0 (fun _ => 3) 0 [])))
  = [0; 4294967290; 4].
Proof. reflexivity. Qed.

(* ===================================================================== *)
(** ** What [start] returns with *)
(* ===================================================================== *)

Lemma SystemState_eqb_eq (a b : SystemState) :
  SystemState_eqb a b = true <-> a = b.
Proof. destruct a, b; cbn; split; intros H; try reflexivity; discriminate H. Qed.

Lemma start_loop_value (fuel : nat) :
  forall (s : FSM) (e : Env),
    value_of (start_loop fuel) s e
    = SystemState_eqb (currentState (fsm_after (start_loop fuel) s e)) STOPPED.
Proof.
  induction fuel as [|fuel IH]; intros s e;
    unfold value_of, fsm_after, run; rewrite start_loop_eq;
    destruct (SystemState_eqb (currentState s) STOPPED) eqn:Hstop;
    cbn [fst snd]; try (now rewrite Hstop).
  rewrite bind_eq.
  specialize (IH (fsm_after update s e) (env_after update s e)).
  unfold value_of, fsm_after, env_after, run in IH.
  destruct (update (s, e)) as [u [s1 e1]]. exact IH.
Qed.

Lemma start_loop_more_fuel (fuel extra : nat) :
  forall (s : FSM) (e : Env),
    value_of (start_loop fuel) s e = true ->
    start_loop (fuel + extra) (s, e) = start_loop fuel (s, e).
Proof.
  induction fuel as [|fuel IH]; intros s e; unfold value_of.
  - rewrite (start_loop_eq 0), (start_loop_eq (0 + extra)).
    destruct (SystemState_eqb (currentState s) STOPPED);
      [reflexivity | discriminate].
  - cbn [Nat.add]. rewrite (start_loop_eq (S fuel)), (start_loop_eq (S (fuel + extra))).
    destruct (SystemState_eqb (currentState s) STOPPED); [reflexivity|].
    rewrite !bind_eq. destruct (update (s, e)) as [u [s1 e1]]. cbn [fst snd].
    intros Hv. apply IH. exact Hv.
Qed.

(** X11.  [start] comes back only with a stopped engine: the run is
    reported as finished exactly when the engine it leaves is [STOPPED],
    and then the last thing written is the shutdown line followed by the
    report of the whole final history.  A finished run does not depend on
    how long the loop would have been allowed to go on. *)
Theorem start_returns_stopped :
  forall (fuel : nat) (s : FSM) (e : Env),
    let finished := value_of (start fuel) s e in
    let s' := fsm_after (start fuel) s e in
    let e' := env_after (start fuel) s e in
    (finished = true <-> currentState s' = STOPPED)
    /\ (finished = true ->
        (exists earlier,
            cout e' = earlier ++ [OStr "Shutting down..."; OEndl] ++ history_out s')
        /\ forall extra : nat, start (fuel + extra) (s, e) = start fuel (s, e)).
Proof.
  intros fuel s e. cbn zeta.
  unfold value_of, fsm_after, env_after, run, start.
  rewrite bind_eq, performInit_eq; cbn [fst snd].
  set (s1 := transitioned IDLE (now_ms e) s).
  set (e1 := ticked (printed [OStr "Initializing..."; OEndl] e)).
  rewrite bind_eq.
  pose proof (start_loop_value fuel s1 e1) as Hv.
  pose proof (fun extra => start_loop_more_fuel fuel extra s1 e1) as Hmore.
  unfold value_of, fsm_after, run in Hv, Hmore.
  destruct (start_loop fuel (s1, e1)) as [v [s2 e2]] eqn:Hloop. cbn [fst snd] in *.
  subst v. destruct (SystemState_eqb (currentState s2) STOPPED) eqn:Hstop.
  - rewrite bind_eq, shutdown_eq. cbn [fst snd ret].
    apply SystemState_eqb_eq in Hstop.
    split; [split; auto|]. intros _. split.
    + exists (cout e2). reflexivity.
    + intros extra. rewrite !bind_eq, performInit_eq. cbn [fst snd].
      fold s1 e1. rewrite (Hmore extra eq_refl). cbn [fst snd].
      rewrite bind_eq, shutdown_eq. reflexivity.
  - cbn [fst snd ret]. split; [|discriminate].
    split; [discriminate|]. intros H. apply SystemState_eqb_eq in H. congruence.
Qed.

Lemma start_returns_stopped_witness :
  value_of (start 4) FSM_default (console [3; 5]) = true
  /\ start (4 + 100) (FSM_default, console [3; 5])
     = start 4 (FSM_default, console [3; 5]).
Proof.
  split; [reflexivity|].
  destruct (start_returns_stopped 4 FSM_default (console [3; 5])) as (_ & Hfin).
  destruct (Hfin eq_refl) as (_ & Hmore). apply Hmore.
Defined.

(* ===================================================================== *)
(** ** Repeated faults end the run *)
(* ===================================================================== *)

Lemma invalid_update_step (s : FSM) (e : Env) :
  counters_in_bounds s -> only_invalid_commands e -> currentState s <> STOPPED ->
  (updates_left (fsm_after update s e) < updates_left s)%nat
  /\ only_invalid_commands (env_after update s e)
  /\ (currentState (fsm_after update s e) = STOPPED ->
      errorCount (fsm_after update s e) = 4).
Proof.
  intros (Hm & Hm3 & He & He4) Hinv Hns.
  assert (He3 : errorCount s <= 3).
  { destruct (Z.eq_dec (errorCount s) 4) as [E|NE]; [|lia].
    exfalso. apply Hns, He4, E. }
  assert (Hlater : forall e0 : Env,
            cin e0 = cin e -> (cin_reads e <= cin_reads e0)%nat ->
            only_invalid_commands e0).
  { intros e0 Hc Hr k Hk. rewrite Hc. apply Hinv. lia. }
  unfold fsm_after, env_after, run. rewrite update_eq.
  unfold updates_left at 2.
  destruct (currentState s) eqn:Hcs; try (exfalso; apply Hns; reflexivity).
  - rewrite performInit_eq. cbn [fst snd]. unfold updates_left;
      cbn [transitioned currentState errorCount with_moveCount with_errorCount].
    split; [lia|]. split; [now apply Hlater | discriminate].
  - rewrite performProcess_eq.
    destruct (Hinv (cin_reads e) (Nat.le_refl _)) as (H1 & H2 & H3 & H4 & H5).
    destruct (command_target_other (next_command e) H1 H2 H3 H4 H5) as [-> _].
    cbn [fst snd]. unfold updates_left;
      cbn [transitioned currentState errorCount with_moveCount with_errorCount].
    split; [lia|]. split; [apply Hlater; cbn; [reflexivity | lia] | discriminate].
  - rewrite performMovement_eq. cbn [fst snd]. unfold updates_left.
    cbn [transitioned currentState errorCount with_moveCount].
    split; [destruct (3 <=? _); lia|].
    split; [now apply Hlater | destruct (3 <=? _); discriminate].
  - rewrite performShooting_eq. cbn [fst snd]. unfold updates_left;
      cbn [transitioned currentState errorCount with_moveCount with_errorCount].
    split; [lia|]. split; [now apply Hlater | discriminate].
  - rewrite performCalculation_eq. cbn [fst snd]. unfold updates_left.
    cbn [transitioned currentState errorCount].
    split; [destruct (_ =? 0); lia|].
    split; [now apply Hlater | destruct (_ =? 0); discriminate].
  - rewrite performErrorHandling_eq. cbn [fst snd]. unfold updates_left.
    cbn [transitioned currentState errorCount with_errorCount].
    rewrite int_incr_plus_one by (unfold INT_MIN, INT_MAX; lia).
    destruct (Z.ltb_spec 3 (errorCount s + 1)).
    + split; [lia|]. split; [now apply Hlater | intros _; lia].
    + split; [lia|]. split; [now apply Hlater | discriminate].
Qed.

Lemma invalid_loop_stops (fuel : nat) :
  forall (s : FSM) (e : Env),
    counters_in_bounds s -> only_invalid_commands e ->
    (currentState s = STOPPED -> errorCount s = 4) ->
    (updates_left s <= fuel)%nat ->
    value_of (start_loop fuel) s e = true
    /\ currentState (fsm_after (start_loop fuel) s e) = STOPPED
    /\ errorCount (fsm_after (start_loop fuel) s e) = 4.
Proof.
  induction fuel as [|fuel IH]; intros s e Hb Hinv Hstop Hfuel;
    destruct (SystemState_eqb (currentState s) STOPPED) eqn:Hs.
  - apply SystemState_eqb_eq in Hs.
    unfold value_of, fsm_after, run. rewrite start_loop_eq, Hs. cbn. auto.
  - exfalso.
    assert (Hns : currentState s <> STOPPED).
    { intros H. apply SystemState_eqb_eq in H. congruence. }
    destruct (invalid_update_step s e Hb Hinv Hns) as [Hlt _]. lia.
  - apply SystemState_eqb_eq in Hs.
    unfold value_of, fsm_after, run. rewrite start_loop_eq, Hs. cbn. auto.
  - assert (Hns : currentState s <> STOPPED).
    { intros H. apply SystemState_eqb_eq in H. congruence. }
    destruct (invalid_update_step s e Hb Hinv Hns) as (Hlt & Hinv' & Hstop').
    specialize (IH (fsm_after update s e) (env_after update s e)
                  (update_keeps_counters_in_bounds s e Hb) Hinv' Hstop'
                  ltac:(lia)).
    unfold value_of, fsm_after, env_after, run in *.
    rewrite start_loop_eq, Hs, bind_eq.
    destruct (update (s, e)) as [u [s1 e1]]. exact IH.
Qed.

(** X12.  An operator who only ever types invalid commands cannot keep
    the engine running: from any state the run loop can be in, the loop of
    [start] is left after at most [updates_left] (never more than 10)
    iterations, with the engine [STOPPED] and exactly four errors counted;
    and [start] on a freshly constructed engine finishes within 8
    iterations. *)
Theorem invalid_commands_stop_the_engine :
  forall e : Env,
    only_invalid_commands e ->
    (forall (fuel : nat) (s : FSM),
       counters_in_bounds s -> currentState s <> STOPPED ->
       (updates_left s <= fuel)%nat ->
       (updates_left s <= 10)%nat
       /\ value_of (start_loop fuel) s e = true
       /\ currentState (fsm_after (start_loop fuel) s e) = STOPPED
       /\ errorCount (fsm_after (start_loop fuel) s e) = 4)
    /\ (forall (fuel : nat) (d : option Z),
          (8 <= fuel)%nat ->
          value_of (start fuel) (construct d) e = true
          /\ currentState (fsm_after (start fuel) (construct d) e) = STOPPED
          /\ errorCount (fsm_after (start fuel) (construct d) e) = 4).
Proof.
  intros e Hinv. split.
  - intros fuel s Hb Hns Hfuel. split.
    + destruct Hb as (_ & _ & He & _).
      unfold updates_left. destruct (currentState s); lia.
    + apply invalid_loop_stops; auto. intros H. contradiction.
  - intros fuel d Hfuel.
    set (s1 := fsm_after performInit (construct d) e).
    set (e1 := env_after performInit (construct d) e).
    assert (Hb1 : counters_in_bounds s1).
    { unfold s1. destruct (performInit_keeps_delay (construct d) e) as [-> _].
      destruct d; unfold counters_in_bounds; cbn; repeat split; try lia; discriminate. }
    assert (Hinv1 : only_invalid_commands e1).
    { unfold e1, env_after, run. rewrite performInit_eq. exact Hinv. }
    assert (Hleft : (updates_left s1 <= fuel)%nat).
    { unfold s1. destruct (performInit_keeps_delay (construct d) e) as [-> _].
      destruct d; unfold updates_left; cbn; lia. }
    assert (Hns1 : currentState s1 = STOPPED -> errorCount s1 = 4).
    { unfold s1. destruct (performInit_keeps_delay (construct d) e) as [-> _].
      discriminate. }
    destruct (invalid_loop_stops fuel s1 e1 Hb1 Hinv1 Hns1 Hleft) as (Hv & Hc & Herr).
    unfold value_of, fsm_after, env_after, run, start in *.
    rewrite bind_eq. fold s1 e1 in Hv, Hc, Herr.
    change (snd (performInit (construct d, e))) with (s1, e1).
    rewrite bind_eq.
    destruct (start_loop fuel (s1, e1)) as [v [s2 e2]]. cbn [fst snd] in *.
    subst v. rewrite bind_eq, shutdown_eq. cbn. auto.
Qed.

Lemma invalid_commands_stop_the_engine_witness :
  only_invalid_commands fumbling_console
  /\ value_of (start 8) FSM_default fumbling_console = true
  /\ errorCount (fsm_after (start 8) FSM_default fumbling_console) = 4.
Proof.
  assert (H : only_invalid_commands fumbling_console).
  { intros k _. cbn. repeat split; discriminate. }
  split; [exact H|].
  destruct (invalid_commands_stop_the_engine fumbling_console H) as [_ Hstart].
  destruct (Hstart 8%nat None (Nat.le_refl 8)) as (Hv & _ & He).
  split; [exact Hv | exact He].
Defined.

(* ===================================================================== *)
(** ** Asking for the status *)
(* ===================================================================== *)

Lemma env_after_updates_S (n : nat) (s : FSM) (e : Env) :
  env_after (updates (S n)) s e
  = env_after (updates n) (fsm_after update s e) (env_after update s e).
Proof. cbn [updates]. now rewrite env_after_bind. Qed.

(** X13.  Asking for the status is free: while the operator answers every
    prompt with 1, an idle engine stays exactly as it is, however many
    [update]s run; each of them consumes one command and none reads the
    clock. *)
Theorem status_polling_changes_nothing :
  forall (n : nat) (s : FSM) (e : Env),
    currentState s = IDLE ->
    (forall k : nat, (k < n)%nat -> to_int (cin e (cin_reads e + k)) = 1) ->
    fsm_after (updates n) s e = s
    /\ cin_reads (env_after (updates n) s e) = (cin_reads e + n)%nat
    /\ clock_reads (env_after (updates n) s e) = clock_reads e.
Proof.
  induction n as [|n IH]; intros s e Hidle Hones.
  - cbn. repeat split. lia.
  - assert (Hnext : next_command e = 1).
    { unfold next_command. rewrite <- (Nat.add_0_r (cin_reads e)).
      apply Hones. lia. }
    assert (Hstep : update (s, e)
                    = (tt, (s, printed (status_out s ++ [prompt]
                                        ++ command_out (next_command e) s)
                                       (consumed e)))).
    { rewrite update_eq, Hidle, performProcess_eq, Hnext. reflexivity. }
    destruct (fsm_after_step _ _ _ _ _ _ Hstep) as [Hs He].
    rewrite fsm_after_updates_S, env_after_updates_S, Hs, He.
    set (e1 := printed _ (consumed e)).
    destruct (IH s e1 Hidle) as (H1 & H2 & H3).
    { intros k Hk. unfold e1. cbn [printed consumed cin cin_reads].
      replace (S (cin_reads e) + k)%nat with (cin_reads e + S k)%nat by lia.
      apply Hones. lia. }
    split; [exact H1|]. split.
    + rewrite H2. unfold e1. cbn [printed consumed cin_reads]. lia.
    + rewrite H3. reflexivity.
Qed.

Lemma status_polling_changes_nothing_witness :
  currentState idle_engine = IDLE
  /\ fsm_after (updates 3) idle_engine (console [1; 1; 1; 2]) = idle_engine.
Proof.
  split; [reflexivity|].
  apply (status_polling_changes_nothing 3 idle_engine (console [1; 1; 1; 2]) eq_refl).
  intros k Hk. destruct k as [|[|[|k]]]; [reflexivity | reflexivity | reflexivity | lia].
Defined.

(* ===================================================================== *)
(** ** Every counted error is on record *)
(* ===================================================================== *)

Lemma errors_recorded_app (h : list (SystemState * Z)) (t : SystemState) (x : Z) :
  errors_recorded (h ++ [(t, x)])
  = errors_recorded h + (if SystemState_eqb t ERROR then 1 else 0).
Proof.
  unfold errors_recorded. rewrite filter_app, length_app. cbn [filter fst].
  destruct (SystemState_eqb t ERROR); cbn; lia.
Qed.

Lemma update_keeps_errors_on_record (s : FSM) (e : Env) :
  counters_in_bounds s /\ errors_on_record s ->
  counters_in_bounds (fsm_after update s e) /\ errors_on_record (fsm_after update s e).
Proof.
  intros [Hb Hrec]. split; [now apply update_keeps_counters_in_bounds|].
  destruct Hb as (_ & _ & He & He4).
  unfold errors_on_record in *. unfold fsm_after, run. rewrite update_eq.
  destruct (currentState s) eqn:Hcs;
    first [ rewrite performInit_eq | rewrite performProcess_eq
          | rewrite performMovement_eq | rewrite performShooting_eq
          | rewrite performCalculation_eq | rewrite performErrorHandling_eq
          | rewrite shutdown_eq ].
  - cbn [fst snd transitioned stateHistory errorCount currentState].
    rewrite errors_recorded_app.
    cbn [SystemState_eqb state_to_int Z.eqb Pos.eqb] in *. lia.
  - destruct (command_target (next_command e)) as [t|];
      cbn [fst snd transitioned stateHistory errorCount currentState].
    + rewrite errors_recorded_app.
      cbn [SystemState_eqb state_to_int Z.eqb Pos.eqb] in Hrec. lia.
    + rewrite Hcs. exact Hrec.
  - cbn [fst snd transitioned stateHistory errorCount currentState with_moveCount].
    rewrite errors_recorded_app.
    cbn [SystemState_eqb state_to_int Z.eqb Pos.eqb] in Hrec. lia.
  - cbn [fst snd transitioned stateHistory errorCount currentState with_moveCount].
    rewrite errors_recorded_app.
    cbn [SystemState_eqb state_to_int Z.eqb Pos.eqb] in *. lia.
  - cbn [fst snd transitioned stateHistory errorCount currentState].
    rewrite errors_recorded_app.
    cbn [SystemState_eqb state_to_int Z.eqb Pos.eqb] in Hrec. lia.
  - cbn [fst snd transitioned stateHistory errorCount currentState with_errorCount].
    rewrite errors_recorded_app.
    assert (He3 : errorCount s <= 3).
    { destruct (Z.eq_dec (errorCount s) 4) as [E|NE]; [|lia].
      apply He4 in E. discriminate E. }
    rewrite int_incr_plus_one by (unfold INT_MIN, INT_MAX; lia).
    cbn [SystemState_eqb state_to_int Z.eqb Pos.eqb] in Hrec.
    destruct (3 <? errorCount s + 1);
      cbn [SystemState_eqb state_to_int Z.eqb Pos.eqb]; lia.
  - cbn [fst snd]. rewrite Hcs. exact Hrec.
Qed.

(** X14.  In a run driven by [update] or [start] from a constructor, the
    error counter and the history tell the same story: the number of
    [ERROR] entries in the history is [errorCount], plus one while the
    engine sits in [ERROR] with that error still to be handled.  Every
    [update] keeps this true of any engine whose counters are in
    bounds. *)
Theorem counted_errors_are_on_record :
  forall (d : option Z) (e : Env) (n : nat),
    (forall (s : FSM) (e0 : Env),
       counters_in_bounds s -> errors_on_record s ->
       errors_on_record (fsm_after (updates n) s e0))
    /\ errors_on_record (fsm_after (updates n) (construct d) e)
    /\ errors_on_record (fsm_after (start n) (construct d) e)
    /\ (currentState (fsm_after (start n) (construct d) e) <> ERROR ->
        errors_recorded (stateHistory (fsm_after (start n) (construct d) e))
        = errorCount (fsm_after (start n) (construct d) e)).
Proof.
  intros d e n.
  set (P := fun s => counters_in_bounds s /\ errors_on_record s).
  assert (Hstep : forall s e0, P s -> P (fsm_after update s e0)).
  { intros s e0. apply update_keeps_errors_on_record. }
  assert (H0 : P (construct d)).
  { split.
    - destruct d; unfold counters_in_bounds; cbn; repeat split; try lia; discriminate.
    - destruct d; reflexivity. }
  assert (Hstart : P (fsm_after (start n) (construct d) e)).
  { apply (start_preserves P Hstep).
    destruct (performInit_keeps_delay (construct d) e) as [-> _].
    split.
    - destruct d; unfold counters_in_bounds; cbn; repeat split; try lia; discriminate.
    - destruct d; reflexivity. }
  split. { intros s e0 Hb Hr. apply (updates_preserve P Hstep n s e0). now split. }
  split. { apply (updates_preserve P Hstep n _ e H0). }
  split. { apply Hstart. }
  intros Hne. destruct Hstart as [_ Hrec]. unfold errors_on_record in Hrec.
  rewrite Hrec.
  destruct (currentState (fsm_after (start n) (construct d) e));
    try (cbn; lia). exfalso. apply Hne. reflexivity.
Qed.

Lemma counted_errors_are_on_record_witness :
  counters_in_bounds idle_engine
  /\ errors_on_record idle_engine
  /\ errors_on_record (fsm_after (updates 5) idle_engine (console [9; 4; 2])).
Proof.
  assert (Hb : counters_in_bounds idle_engine).
  { unfold counters_in_bounds; cbn; repeat split; try lia; discriminate. }
  assert (Hr : errors_on_record idle_engine) by reflexivity.
  split; [exact Hb|]. split; [exact Hr|].
  destruct (counted_errors_are_on_record None (console []) 5) as (Hk & _).
  apply Hk; assumption.
Defined.

(* ===================================================================== *)
(** ** Decisions depend on state, counters and commands only *)
(* ===================================================================== *)

Lemma steered_by_commands_only_bind {A B} (m : M A) (k : A -> M B) :
  steered_by_commands_only m -> (forall a, steered_by_commands_only (k a)) ->
  steered_by_commands_only (bind m k).
Proof.
  intros Hm Hk w1 w2 Hw. rewrite !bind_eq.
  destruct (Hm w1 w2 Hw) as [Hv Hw']. rewrite Hv. now apply Hk.
Qed.

Lemma steered_by_commands_only_ret {A} (a : A) : steered_by_commands_only (ret a).
Proof. intros w1 w2 Hw. split; [reflexivity | exact Hw]. Qed.

(** Two runs that both make the same transition, reading each its own
    clock and printing each its own lines, are still alike. *)
Lemma steered_alike_transitioned
      (target : SystemState) (t1 t2 : Z) (s1 s2 s1' s2' : FSM)
      (o1 o2 : list Out) (e1 e2 : Env) :
  steered_alike (s1, e1) (s2, e2) ->
  moveCount s1' = moveCount s2' -> errorCount s1' = errorCount s2' ->
  stateHistory s1' = stateHistory s1 -> stateHistory s2' = stateHistory s2 ->
  steered_alike (transitioned target t1 s1', ticked (printed o1 e1))
                (transitioned target t2 s2', ticked (printed o2 e2)).
Proof.
  intros (Hc & Hm & He & Hh & Hcmd) Hm' He' H1 H2.
  unfold steered_alike.
  cbn [fst snd transitioned currentState moveCount errorCount stateHistory] in *.
  rewrite H1, H2, !map_app, Hh.
  repeat split; try assumption.
Qed.

Lemma steered_by_commands_only_performInit : steered_by_commands_only performInit.
Proof.
  intros [s1 e1] [s2 e2] Hw. rewrite !performInit_eq. cbn [fst snd].
  split; [reflexivity|].
  apply steered_alike_transitioned with (s1 := s1) (s2 := s2);
    try reflexivity; try exact Hw; apply Hw.
Qed.

Lemma steered_by_commands_only_performMovement :
  steered_by_commands_only performMovement.
Proof.
  intros [s1 e1] [s2 e2] Hw. rewrite !performMovement_eq. cbn [fst snd].
  split; [reflexivity|].
  assert (Hm : moveCount s1 = moveCount s2) by apply Hw.
  rewrite Hm.
  apply steered_alike_transitioned with (s1 := s1) (s2 := s2);
    try reflexivity; try exact Hw; apply Hw.
Qed.

Lemma steered_by_commands_only_performShooting :
  steered_by_commands_only performShooting.
Proof.
  intros [s1 e1] [s2 e2] Hw. rewrite !performShooting_eq. cbn [fst snd].
  split; [reflexivity|].
  apply steered_alike_transitioned with (s1 := s1) (s2 := s2);
    try reflexivity; try exact Hw; apply Hw.
Qed.

Lemma steered_by_commands_only_performCalculation :
  steered_by_commands_only performCalculation.
Proof.
  intros [s1 e1] [s2 e2] Hw. rewrite !performCalculation_eq. cbn [fst snd].
  split; [reflexivity|].
  assert (Hm : moveCount s1 = moveCount s2) by apply Hw.
  rewrite Hm.
  apply steered_alike_transitioned with (s1 := s1) (s2 := s2);
    try reflexivity; try exact Hw; apply Hw.
Qed.

Lemma steered_by_commands_only_performErrorHandling :
  steered_by_commands_only performErrorHandling.
Proof.
  intros [s1 e1] [s2 e2] Hw. rewrite !performErrorHandling_eq. cbn [fst snd].
  split; [reflexivity|].
  assert (He : errorCount s1 = errorCount s2) by apply Hw.
  rewrite He.
  apply steered_alike_transitioned with (s1 := s1) (s2 := s2);
    try reflexivity; try exact Hw; apply Hw.
Qed.

Lemma steered_by_commands_only_shutdown : steered_by_commands_only shutdown.
Proof.
  intros [s1 e1] [s2 e2] Hw. rewrite !shutdown_eq. cbn [fst snd].
  split; [reflexivity | exact Hw].
Qed.

Lemma same_commands_next (e1 e2 : Env) :
  same_commands e1 e2 ->
  next_command e1 = next_command e2
  /\ same_commands (consumed e1) (consumed e2).
Proof.
  intros H. split.
  - unfold next_command. specialize (H 0%nat). now rewrite !Nat.add_0_r in H.
  - intros k. cbn [consumed cin cin_reads].
    specialize (H (S k)). now rewrite <- !Nat.add_succ_comm in H.
Qed.

Lemma steered_by_commands_only_performProcess :
  steered_by_commands_only performProcess.
Proof.
  intros [s1 e1] [s2 e2] Hw. rewrite !performProcess_eq. cbn [fst snd].
  split; [reflexivity|].
  destruct Hw as (Hc & Hm & He & Hh & Hcmd). cbn [fst snd] in *.
  destruct (same_commands_next e1 e2 Hcmd) as [Hnext Hlater].
  rewrite <- Hnext.
  destruct (command_target (next_command e1)) as [t|].
  - apply steered_alike_transitioned with (s1 := s1) (s2 := s2);
      try reflexivity; try assumption.
    repeat split; try assumption.
  - repeat split; try assumption.
Qed.

Lemma steered_by_commands_only_update : steered_by_commands_only update.
Proof.
  intros [s1 e1] [s2 e2] Hw.
  assert (Hc : currentState s1 = currentState s2) by apply Hw.
  rewrite !update_eq, <- Hc.
  destruct (currentState s1).
  - now apply steered_by_commands_only_performInit.
  - now apply steered_by_commands_only_performProcess.
  - now apply steered_by_commands_only_performMovement.
  - now apply steered_by_commands_only_performShooting.
  - now apply steered_by_commands_only_performCalculation.
  - now apply steered_by_commands_only_performErrorHandling.
  - now apply steered_by_commands_only_shutdown.
Qed.

Lemma steered_by_commands_only_updates (n : nat) :
  steered_by_commands_only (updates n).
Proof.
  induction n as [|n IH]; cbn [updates].
  - apply steered_by_commands_only_ret.
  - apply steered_by_commands_only_bind;
      [apply steered_by_commands_only_update | intros _; exact IH].
Qed.

Lemma steered_by_commands_only_start_loop (fuel : nat) :
  steered_by_commands_only (start_loop fuel).
Proof.
  induction fuel as [|fuel IH]; intros [s1 e1] [s2 e2] Hw;
    assert (Hc : currentState s1 = currentState s2) by apply Hw;
    rewrite !start_loop_eq, <- Hc;
    destruct (SystemState_eqb (currentState s1) STOPPED);
    try (split; [reflexivity | exact Hw]).
  apply (steered_by_commands_only_bind update (fun _ => start_loop fuel));
    [apply steered_by_commands_only_update | intros _; exact IH | exact Hw].
Qed.

Lemma steered_by_commands_only_start (fuel : nat) :
  steered_by_commands_only (start fuel).
Proof.
  unfold start.
  apply steered_by_commands_only_bind;
    [apply steered_by_commands_only_performInit | intros _].
  apply steered_by_commands_only_bind;
    [apply steered_by_commands_only_start_loop | intros [|]].
  - apply steered_by_commands_only_bind;
      [apply steered_by_commands_only_shutdown | intros _].
    apply steered_by_commands_only_ret.
  - apply steered_by_commands_only_ret.
Qed.

Lemma steered_by_commands_only_routine (r : Routine) :
  steered_by_commands_only (run_routine r).
Proof.
  destruct r; cbn [run_routine].
  - apply steered_by_commands_only_performInit.
  - apply steered_by_commands_only_performProcess.
  - apply steered_by_commands_only_performMovement.
  - apply steered_by_commands_only_performShooting.
  - apply steered_by_commands_only_performCalculation.
  - apply steered_by_commands_only_performErrorHandling.
  - apply steered_by_commands_only_shutdown.
  - apply steered_by_commands_only_update.
  - apply steered_by_commands_only_updates.
  - apply steered_by_commands_only_bind;
      [apply steered_by_commands_only_start
      | intros _; apply steered_by_commands_only_ret].
Qed.

(** C9.  Take two objects that differ only in [delay] and run the same
    routine ([update], any handler it dispatches to, any number of
    [update]s, or [start]) on each, with the same commands coming in but
    each with a clock and an output of its own.  Both runs end in the same
    [currentState], [moveCount] and [errorCount], append the same sequence
    of states to the history (under the timestamps of their own clocks),
    consume the same commands, and each object keeps its own [delay].  If
    the two runs also share the clock and the output, they append the very
    same entries and leave the same environment. *)
Theorem delay_never_steers :
  forall (r : Routine) (s1 s2 : FSM) (e1 e2 : Env),
    same_but_delay s1 s2 ->
    same_commands e1 e2 ->
    let s1' := fsm_after (run_routine r) s1 e1 in
    let s2' := fsm_after (run_routine r) s2 e2 in
    currentState s1' = currentState s2'
    /\ moveCount s1' = moveCount s2'
    /\ errorCount s1' = errorCount s2'
    /\ (exists appended1 appended2,
          stateHistory s1' = stateHistory s1 ++ appended1
          /\ stateHistory s2' = stateHistory s2 ++ appended2
          /\ map fst appended1 = map fst appended2)
    /\ same_commands (env_after (run_routine r) s1 e1)
                     (env_after (run_routine r) s2 e2)
    /\ delay s1' = delay s1
    /\ delay s2' = delay s2
    /\ (e1 = e2 ->
        same_but_delay s1' s2'
        /\ stateHistory s1' = stateHistory s2'
        /\ env_after (run_routine r) s1 e1 = env_after (run_routine r) s2 e2).
Proof.
  intros r s1 s2 e1 e2 Hsame Hcmd s1' s2'.
  assert (Hw : steered_alike (s1, e1) (s2, e2)).
  { destruct Hsame as (Hc & _ & He & Hh & Hm). unfold steered_alike. cbn [fst snd].
    rewrite Hh. repeat split; assumption. }
  destruct (steered_by_commands_only_routine r _ _ Hw)
    as (_ & Hc' & Hm' & He' & Hh' & Hcmd').
  fold (run (run_routine r) s1 e1) in Hc', Hm', He', Hh', Hcmd'.
  fold (run (run_routine r) s2 e2) in Hc', Hm', He', Hh', Hcmd'.
  fold (fsm_after (run_routine r) s1 e1) in Hc', Hm', He', Hh'.
  fold (fsm_after (run_routine r) s2 e2) in Hc', Hm', He', Hh'.
  fold s1' in Hc', Hm', He', Hh'. fold s2' in Hc', Hm', He', Hh'.
  destruct (history_grows_routine r s1 e1) as [a1 Ha1]. fold s1' in Ha1.
  destruct (history_grows_routine r s2 e2) as [a2 Ha2]. fold s2' in Ha2.
  assert (Hd : forall (s : FSM) (e : Env),
            delay (fsm_after (run_routine r) s e) = delay s).
  { intros s e. pose proof (delay_blind_routine r (delay s) s e) as Hb.
    assert (Hid : with_delay (delay s) s = s) by (destruct s; reflexivity).
    rewrite Hid in Hb. unfold fsm_after, run. rewrite Hb at 1. reflexivity. }
  split; [exact Hc'|]. split; [exact Hm'|]. split; [exact He'|].
  split.
  { exists a1, a2. split; [exact Ha1|]. split; [exact Ha2|].
    rewrite Ha1, Ha2, !map_app in Hh'.
    destruct Hsame as (_ & _ & _ & Hhist & _). rewrite Hhist in Hh'.
    now apply app_inv_head in Hh'. }
  split; [exact Hcmd'|].
  split; [apply Hd|]. split; [apply Hd|].
  intros <-.
  destruct (delay_is_carried_along r s1 s2 e1 Hsame)
    as (_ & _ & _ & _ & Hsame' & _ & _ & Henv).
  split; [exact Hsame'|]. split; [apply Hsame' | exact Henv].
Qed.

Lemma delay_never_steers_witness :
  same_but_delay FSM_default (FSM_with_delay 250)
  /\ same_commands (console [2; 2; 2; 4; 9; 5]) (console_at 777 [2; 2; 2; 4; 9; 5])
  /\ currentState (fsm_after (run_routine (R_start 20)) FSM_default
                     (console [2; 2; 2; 4; 9; 5]))
     = currentState (fsm_after (run_routine (R_start 20)) (FSM_with_delay 250)
                       (console_at 777 [2; 2; 2; 4; 9; 5])).
Proof.
  assert (H1 : same_but_delay FSM_default (FSM_with_delay 250)) by (repeat split).
  assert (H2 : same_commands (console [2; 2; 2; 4; 9; 5])
                             (console_at 777 [2; 2; 2; 4; 9; 5]))
    by (intros k; reflexivity).
  split; [exact H1|]. split; [exact H2|].
  exact (proj1 (delay_never_steers (R_start 20) FSM_default (FSM_with_delay 250)
                  (console [2; 2; 2; 4; 9; 5]) (console_at 777 [2; 2; 2; 4; 9; 5])
                  H1 H2)).
Defined.

(** Two runs of [start] on the same commands under different clocks and
    delays: the same states on record, under different timestamps. *)
Example run_two_clocks :
  map fst (stateHistory (fsm_after (start 20) FSM_default (console [2; 9; 5])))
  = map fst (stateHistory (fsm_after (start 20) (FSM_with_delay 250)
                             (console_at 777 [2; 9; 5])))
  /\ map snd (stateHistory (fsm_after (start 20) FSM_default (console [2; 9; 5])))
     = [0; 0; 10; 20; 30; 40; 50]
  /\ map snd (stateHistory (fsm_after (start 20) (FSM_with_delay 250)
                              (console_at 777 [2; 9; 5])))
     = [0; 777; 780; 783; 786; 789; 792].
Proof. vm_compute. repeat split. Qed.

(* ===================================================================== *)
(** ** The counters at the edges of [int] and below zero *)
(* ===================================================================== *)

(** C3, as claimed, fails.  After [setMoveCount(INT_MAX)] one Movement
    action leaves the count at [INT_MIN], not one higher, and the engine in
    [IDLE]; after [setMoveCount(-5)] three Movement actions in a row leave
    the count at -2 and the engine in [IDLE], not in [SHOOTING]. *)
Lemma performMovement_fails_at_the_edges :
  moveCount (engine_with_moveCount INT_MAX) = INT_MAX
  /\ moveCount (fsm_after performMovement (engine_with_moveCount INT_MAX)
                  (console [])) = INT_MIN
  /\ currentState (fsm_after performMovement (engine_with_moveCount INT_MAX)
                     (console [])) = IDLE
  /\ moveCount
       (fsm_after performMovement
          (fsm_after performMovement
             (fsm_after performMovement (engine_with_moveCount (-5)) (console []))
             (console []))
          (console [])) = -2
  /\ currentState
       (fsm_after performMovement
          (fsm_after performMovement
             (fsm_after performMovement (engine_with_moveCount (-5)) (console []))
             (console []))
          (console [])) = IDLE
  /\ ~ performMovement_as_claimed.
Proof.
  do 5 (split; [reflexivity|]).
  intros H.
  destruct (H (engine_with_moveCount (-5)) (console []) (console []) (console []))
    as (_ & _ & Hthree).
  vm_compute in Hthree. discriminate Hthree.
Qed.

(** C4, as claimed, fails.  After [setErrorCount(INT_MAX)] one error
    leaves the count at [INT_MIN], not one higher, and the engine goes to
    [IDLE], not to [STOPPED]. *)
Lemma performErrorHandling_fails_at_INT_MAX :
  errorCount (engine_with_errorCount INT_MAX) = INT_MAX
  /\ errorCount (fsm_after performErrorHandling (engine_with_errorCount INT_MAX)
                   (console [])) = INT_MIN
  /\ currentState (fsm_after performErrorHandling (engine_with_errorCount INT_MAX)
                     (console [])) = IDLE
  /\ ~ performErrorHandling_as_claimed.
Proof.
  do 3 (split; [reflexivity|]).
  intros H.
  destruct (H (engine_with_errorCount INT_MAX) (console [])) as (Hplus & _).
  vm_compute in Hplus. discriminate Hplus.
Qed.
